(** * Virtual closet: the outfit-matching engine of [src/App.tsx]

    A shallow embedding of the pure functions behind the outfit
    suggestions ([hexToRgb], [colorDistance], [nameNearestColor],
    [buildRules], [isColorFriendly], [mixAndMatch]) together with the
    properties the specification states about them.

    Conventions of the embedding.
    - A JavaScript string is a [string]; every character stands for one
      code unit.  The strings handled here (hex colours, base-36 ids,
      palette names) are ASCII.
    - An optional field ([x?: T]) is an [option]; [None] is [undefined].
    - An array is a [list]; [push] appends at the end.
    - A [Set<string>] is a [gset string]. *)

From Stdlib Require Import ZArith String Ascii List Bool Lia.
From stdpp Require Import base list gmap strings sorting.

Local Open Scope string_scope.
Local Open Scope list_scope.
Local Open Scope Z_scope.

(** * The program *)

(** ** JavaScript numbers and [parseInt(_, 16)] *)

Module Js.

(** The numbers [parseInt] can return: [NaN], an integer-valued double or
    an infinity (a digit string too long for the double range). *)
Inductive number :=
| NaN
| Finite (z : Z)
| Infinite (negative : bool).

(** White space skipped by [parseInt] (code units below 256): TAB, LF, VT,
    FF, CR, SP and NBSP. *)
Definition isWhiteSpace (c : ascii) : bool :=
  let n := Z.of_N (N_of_ascii c) in
  ((9 <=? n) && (n <=? 13)) || (n =? 32) || (n =? 160).

Definition hexDigit (c : ascii) : option Z :=
  let n := Z.of_N (N_of_ascii c) in
  if (48 <=? n) && (n <=? 57) then Some (n - 48)
  else if (65 <=? n) && (n <=? 70) then Some (n - 55)
  else if (97 <=? n) && (n <=? 102) then Some (n - 87)
  else None.

Fixpoint trimStart (s : string) : string :=
  match s with
  | String c s' => if isWhiteSpace c then trimStart s' else s
  | EmptyString => s
  end.

(** The longest prefix of hex digits, read most significant digit first:
    [(number of digits, value)]. *)
Fixpoint hexPrefix (s : string) (n : nat) (acc : Z) : nat * Z :=
  match s with
  | String c s' =>
      match hexDigit c with
      | Some d => hexPrefix s' (S n) (16 * acc + d)
      | None => (n, acc)
      end
  | EmptyString => (n, acc)
  end.

(** The double nearest to a natural number, ties to even (53 significant
    bits); beyond the double range the result is an infinity. *)
Definition roundToDouble (negative : bool) (m : Z) : number :=
  let sign := if negative then -1 else 1 in
  if m <? 2 ^ 53 then Finite (sign * m)
  else
    let e := Z.log2 m - 52 in
    let q := Z.shiftr m e in
    let rest := m - Z.shiftl q e in
    let half := 2 ^ (e - 1) in
    let q' := if (half <? rest) || ((rest =? half) && Z.odd q) then q + 1 else q in
    let v := Z.shiftl q' e in
    if 2 ^ 1024 <=? v then Infinite negative else Finite (sign * v).

(** [parseInt(s, 16)]: skip white space, read a sign, skip [0x] or [0X],
    read the longest run of hex digits; no digit gives [NaN]. *)
Definition parseInt16 (s : string) : number :=
  let s := trimStart s in
  let '(negative, s) :=
    match s with
    | String "-" s' => (true, s')
    | String "+" s' => (false, s')
    | _ => (false, s)
    end in
  let s :=
    match s with
    | String "0" (String "x" s') => s'
    | String "0" (String "X" s') => s'
    | _ => s
    end in
  match hexPrefix s 0%nat 0 with
  | (O, _) => NaN
  | (_, m) => roundToDouble negative m
  end.

(** [ToInt32], applied by [>>] and [&] to their left operand. *)
Definition toInt32 (x : number) : Z :=
  match x with
  | NaN | Infinite _ => 0
  | Finite z => let m := z mod 2 ^ 32 in if 2 ^ 31 <=? m then m - 2 ^ 32 else m
  end.

(** [String.prototype.replace(pattern, '')] for a one-character pattern:
    the first occurrence is removed. *)
Fixpoint removeFirst (p : ascii) (s : string) : string :=
  match s with
  | String c s' => if Ascii.eqb c p then s' else String c (removeFirst p s')
  | EmptyString => EmptyString
  end.

(** [s.split('').map(c => c + c).join('')]. *)
Fixpoint doubleEach (s : string) : string :=
  match s with
  | String c s' => String c (String c (doubleEach s'))
  | EmptyString => EmptyString
  end.

(** A value that is a string or [undefined], in a template literal. *)
Definition toString (v : option string) : string :=
  match v with Some s => s | None => "undefined" end.

(** [arr.includes(v)] on an array of strings; [undefined] is never an
    element of such an array. *)
Definition includes (arr : list string) (v : option string) : bool :=
  match v with
  | Some s => existsb (String.eqb s) arr
  | None => false
  end.

End Js.

(** ** Colours *)

Record Rgb := { r : Z; g : Z; b : Z }.

Definition hexToRgb (hex : string) : Rgb :=
  let parsed := Js.removeFirst "#" hex in
  let str := if (String.length parsed =? 3)%nat then Js.doubleEach parsed else parsed in
  let bigint := Js.toInt32 (Js.parseInt16 str) in
  {| r := Z.land (Z.shiftr bigint 16) 255;
     g := Z.land (Z.shiftr bigint 8) 255;
     b := Z.land bigint 255 |}.

(** [colorDistance] returns [Math.sqrt] of a sum of three squares of
    integers in [-255, 255], an integer below [2^18].  Such a double is
    represented by its radicand, [Root n] for [Math.sqrt(n)]: on these
    arguments the square root is exact on perfect squares and strictly
    increasing, so comparing two of them, or one of them with an integer
    threshold, is comparing radicands.  [Infinity] is the initial bound of
    the nearest-colour search. *)
Inductive Distance :=
| Root (n : Z)
| Infinity.

Definition Distance_ltb (x y : Distance) : bool :=
  match x, y with
  | Root n, Root m => n <? m
  | Root _, Infinity => true
  | Infinity, _ => false
  end.

(** The integer [t] as a distance: [t = Math.sqrt(t * t)]. *)
Definition ofInteger (t : Z) : Distance := Root (t * t).

(** [d > t] for an integer literal [t]. *)
Definition exceeds (d : Distance) (t : Z) : bool := Distance_ltb (ofInteger t) d.

Definition squaredDistance (x y : Rgb) : Z :=
  (r x - r y) ^ 2 + (g x - g y) ^ 2 + (b x - b y) ^ 2.

Definition colorDistance (hex1 hex2 : string) : Distance :=
  let a := hexToRgb hex1 in
  let b := hexToRgb hex2 in
  Root (squaredDistance a b).

(** The palette, in the order the object literal lists its keys (the order
    [Object.keys] yields for keys that are not array indices). *)
Definition NAMED_COLORS : list (string * string) :=
  [ ("#000000", "black"); ("#222222", "charcoal"); ("#444444", "graphite");
    ("#666666", "slate"); ("#888888", "gray");
    ("#FFFFFF", "white"); ("#F2F2F2", "off white");
    ("#C0392B", "red"); ("#D35400", "orange"); ("#F39C12", "amber");
    ("#27AE60", "green"); ("#16A085", "teal");
    ("#2980B9", "blue"); ("#8E44AD", "purple"); ("#E67E22", "rust");
    ("#B87333", "copper"); ("#A0522D", "brown") ].

Definition NAMED_KEYS : list string := fst <$> NAMED_COLORS.

(** Property access [obj[key]] on a table of string entries. *)
Definition getProperty (obj : list (string * string)) (key : string) : option string :=
  option_map snd (List.find (fun e => String.eqb (fst e) key) obj).

(** One iteration of the loop of [nameNearestColor] on the pair
    [(best, bestD)]. *)
Definition nearestStep (hex : string) (st : string * Distance) (key : string)
  : string * Distance :=
  let d := colorDistance hex key in
  if Distance_ltb d (snd st) then (key, d) else st.

Definition nearestKey (hex : string) (keys : list string) : string * Distance :=
  fold_left (nearestStep hex) keys (nth 0 keys "undefined", Infinity).

Definition nameNearestColor (hex : string) : option string :=
  getProperty NAMED_COLORS (fst (nearestKey hex NAMED_KEYS)).

(** ** Data model *)

Inductive GarmentType := top | bottom | dress | outerwear | shoes | accessory.
Inductive FitGoal :=
  elongate | balance | accentuateShoulders | accentuateWaist | minimizeHips | relaxed.
Inductive StyleVibe :=
  classic | minimalist | sporty | street | elegant | boho | edgy | preppy.
Inductive Season := spring | summer | autumn | winter.
Inductive BodyType := rectangle | triangle | invertedTriangle | hourglass | oval.
Inductive Undertone := cool | warm | neutral.

#[global] Instance GarmentType_eq_dec : EqDecision GarmentType.
Proof. solve_decision. Defined.
#[global] Instance FitGoal_eq_dec : EqDecision FitGoal.
Proof. solve_decision. Defined.
#[global] Instance BodyType_eq_dec : EqDecision BodyType.
Proof. solve_decision. Defined.

Record Garment := {
  id : string;
  name : string;
  type : GarmentType;
  colorHex : string;
  colorName : string;
  imageDataUrl : string;
  tags : list string;
  season : option (list Season)
}.

(** The fields of [CustomerProfile] the engine reads, and the two reserved
    ones.  [bodyType] and [skinUndertone] are [None] when unset (the empty
    choice of the form is as falsy as [undefined]). The display-only fields
    ([name], [heightCm], [avoidNotes]) are left out. *)
Record CustomerProfile := {
  bodyType : option BodyType;
  skinUndertone : option Undertone;
  preferredStyles : list StyleVibe;
  favoriteColors : option (list string);
  dislikedColors : option (list string);
  formalityScale : option Z
}.

(** An element of [combos]. *)
Record Combo := {
  items : list Garment;
  rationale : list string
}.

(** ** Rules and colour compatibility *)

(** [goals.push(...)] guarded by [profile.bodyType === t]. *)
Definition pushIf (t : BodyType) (profile : CustomerProfile)
    (goals new : list FitGoal) : list FitGoal :=
  if bool_decide (bodyType profile = Some t) then goals ++ new else goals.

Definition buildRules (profile : CustomerProfile) : list FitGoal :=
  let goals := [] in
  let goals := pushIf rectangle profile goals [accentuateWaist] in
  let goals := pushIf triangle profile goals [accentuateShoulders; elongate] in
  let goals := pushIf invertedTriangle profile goals [minimizeHips; balance] in
  let goals := pushIf hourglass profile goals [accentuateWaist] in
  let goals := pushIf oval profile goals [elongate; relaxed] in
  goals.

Definition coolFriendly : list string :=
  ["blue"; "purple"; "charcoal"; "graphite"; "white"; "teal"].
Definition warmFriendly : list string :=
  ["rust"; "amber"; "copper"; "brown"; "green"; "off white"].

Definition isColorFriendly (hex : string) (profile : CustomerProfile) : bool :=
  match skinUndertone profile with
  | None => true
  | Some undertone =>
      let name := nameNearestColor hex in
      match undertone with
      | cool => Js.includes coolFriendly name
      | warm => Js.includes warmFriendly name
      | neutral => true
      end
  end.

(** ** The outfit composer *)

(** [g.type === t]. *)
Definition hasType (t : GarmentType) (x : Garment) : bool :=
  bool_decide (type x = t).

(** [[...(x ? [x] : [])]]. *)
Definition spread (x : option Garment) : list Garment :=
  match x with Some y => [y] | None => [] end.

(** [colorDistance(x.colorHex, y.colorHex) > t]. *)
Definition contrasts (t : Z) (y x : Garment) : bool :=
  exceeds (colorDistance (colorHex x) (colorHex y)) t.

(** The body of [dresses.slice(0,6).forEach(d => ...)], on [combos]. *)
Definition dressStep (outers shoes : list Garment) (combos : list Combo)
    (d : Garment) : list Combo :=
  let layer := List.find (contrasts 90 d) outers in
  let shoe := List.find (contrasts 60 d) shoes in
  match shoe with
  | Some shoe =>
      let rationale :=
        [ "Dress as one-and-done base";
          match layer with
          | Some layer =>
              "Layer adds structure (" +:+ Js.toString (nameNearestColor (colorHex layer))
                +:+ " vs " +:+ Js.toString (nameNearestColor (colorHex d)) +:+ ")"
          | None => "Minimal layering to elongate line"
          end;
          "Shoes chosen for contrast" ] in
      combos ++ [ {| items := [d] ++ spread layer ++ [shoe]; rationale := rationale |} ]
  | None => combos
  end.

(** [if (rules.includes(goal)) rationale.push(line)]. *)
Definition pushAdvice (rules : list FitGoal) (goal : FitGoal) (line : string)
    (rationale : list string) : list string :=
  if bool_decide (goal ∈ rules) then rationale ++ [line] else rationale.

(** The body of [tops.slice(0,8).forEach(t => ...)], on [combos]. *)
Definition topStep (bottoms outers shoes : list Garment) (rules : list FitGoal)
    (combos : list Combo) (t : Garment) : list Combo :=
  match List.find (contrasts 80 t) bottoms with
  | None => combos
  | Some bottom_ =>
      let layer := List.find (contrasts 90 t) outers in
      let shoe := List.find (contrasts 60 bottom_) shoes in
      let rationale :=
        [ "Top (" +:+ Js.toString (nameNearestColor (colorHex t)) +:+ ") with "
            +:+ Js.toString (nameNearestColor (colorHex bottom_))
            +:+ " bottom for contrast" ] in
      let rationale :=
        pushAdvice rules accentuateWaist "Tuck or belt to define waistline" rationale in
      let rationale :=
        pushAdvice rules elongate
          "Monochromatic column from top to shoe to elongate silhouette" rationale in
      let rationale :=
        pushAdvice rules accentuateShoulders
          "Structured shoulder or boat-neck to broaden upper body" rationale in
      let items := [t; bottom_] ++ spread layer ++ spread shoe in
      combos ++ [ {| items := items; rationale := rationale |} ]
  end.

(** The array [combos] once both loops have run. *)
Definition candidates (garments : list Garment) (profile : CustomerProfile)
  : list Combo :=
  let tops := List.filter (hasType top) garments in
  let bottoms := List.filter (hasType bottom) garments in
  let dresses := List.filter (hasType dress) garments in
  let outers := List.filter (hasType outerwear) garments in
  let shoes := List.filter (hasType shoes) garments in
  let rules := buildRules profile in
  let combos := [] in
  let combos := fold_left (dressStep outers shoes) (take 6 dresses) combos in
  let combos := fold_left (topStep bottoms outers shoes rules) (take 8 tops) combos in
  combos.

(** The predicate of [c.items.every(i => ...)]. *)
Definition itemAccepted (profile : CustomerProfile) (i : Garment) : bool :=
  match dislikedColors profile with
  | None => true
  | Some disliked => negb (Js.includes disliked (nameNearestColor (colorHex i)))
  end
  && match favoriteColors profile with
     | None => true
     | Some favorite =>
         (length favorite =? 0)%nat
         || Js.includes favorite (nameNearestColor (colorHex i))
     end
  && isColorFriendly (colorHex i) profile.

(** [<=] on strings by code units, the order of [Array.prototype.sort]
    without a comparator. *)
Definition string_le (s1 s2 : string) : Prop := String.leb s1 s2 = true.

#[global] Instance string_le_dec : RelDecision string_le.
Proof. intros s1 s2. unfold string_le. apply _. Defined.

(** [c.items.map(i => i.id).sort().join('-')]. *)
Definition comboKey (c : Combo) : string :=
  String.concat "-" (merge_sort string_le (id <$> items c)).

(** The body of [for (const c of filtered) ...], on the pair [(uniq, seen)]. *)
Definition dedupStep (st : list Combo * gset string) (c : Combo)
  : list Combo * gset string :=
  let key := comboKey c in
  if bool_decide (key ∈ st.2) then st else (st.1 ++ [c], {[key]} ∪ st.2).

Definition mixAndMatch (garments : list Garment) (profile : CustomerProfile)
  : list Combo :=
  let combos := candidates garments profile in
  let filtered := List.filter (fun c => forallb (itemAccepted profile) (items c)) combos in
  let '(uniq, seen) := fold_left dedupStep filtered ([], ∅) in
  take 12 uniq.

(** * Vocabulary of the properties *)

(** The radicand of [colorDistance(hex, key)]. *)
Definition radicand (hex key : string) : Z :=
  squaredDistance (hexToRgb hex) (hexToRgb key).

(** What the loop of [nameNearestColor] has established once it has scanned
    [keys]: nothing on an empty list; otherwise [best] is the first key at
    minimal distance. *)
Definition FirstNearest (hex : string) (keys : list string) (init : string)
    (st : string * Distance) : Prop :=
  (keys = [] ∧ st = (init, Infinity))
  ∨ ∃ (i : nat) (key : string),
      keys !! i = Some key
      ∧ st = (key, Root (radicand hex key))
      ∧ (∀ (j : nat) k, keys !! j = Some k → radicand hex key ≤ radicand hex k)
      ∧ (∀ (j : nat) k, (j < i)%nat → keys !! j = Some k →
           radicand hex key < radicand hex k).

(** The palette names. *)
Definition paletteNames : list string := snd <$> NAMED_COLORS.

(** [o] is what [l.find(p)] returns: the first element that satisfies [P],
    or nothing when no element does. *)
Definition FirstMatch {A} (P : A → Prop) (l : list A) (o : option A) : Prop :=
  match o with
  | Some x => ∃ before after, l = before ++ x :: after ∧ P x ∧ Forall (λ y, ¬ P y) before
  | None => Forall (λ y, ¬ P y) l
  end.

(** The elements of [l] whose key does not occur earlier in [l], in the
    order of [l]: the first occurrence of each key. *)
Fixpoint firstOccurrences {A} (key : A → string) (l : list A) : list A :=
  match l with
  | [] => []
  | x :: l' =>
      x :: List.filter (λ y, negb (String.eqb (key y) (key x))) (firstOccurrences key l')
  end.

(** The colour distance between [x] and [y] exceeds [t]. *)
Definition Farther (t : Z) (x y : Garment) : Prop :=
  t * t < squaredDistance (hexToRgb (colorHex x)) (hexToRgb (colorHex y)).

(** The two shapes of an outfit over a wardrobe. *)
Definition DressOutfit (garments : list Garment) (c : Combo) : Prop :=
  ∃ d layer shoe,
    items c = [d] ++ spread layer ++ [shoe]
    ∧ (d ∈ garments ∧ type d = dress)
    ∧ (∀ o, layer = Some o → o ∈ garments ∧ type o = outerwear)
    ∧ (shoe ∈ garments ∧ type shoe = shoes).

Definition TopOutfit (garments : list Garment) (c : Combo) : Prop :=
  ∃ t bottom_ layer shoe,
    items c = [t; bottom_] ++ spread layer ++ spread shoe
    ∧ (t ∈ garments ∧ type t = top)
    ∧ (bottom_ ∈ garments ∧ type bottom_ = bottom)
    ∧ (∀ o, layer = Some o → o ∈ garments ∧ type o = outerwear)
    ∧ (∀ s, shoe = Some s → s ∈ garments ∧ type s = shoes).

(** The three conditions of an acceptable item: (a) its colour name is not
    disliked; (b) when there are favourite colours, its colour name is one
    of them; (c) its colour name suits the undertone, if one is set. *)
Definition AcceptableItem (profile : CustomerProfile) (i : Garment) : Prop :=
  ∃ colour,
    nameNearestColor (colorHex i) = Some colour
    ∧ (∀ disliked, dislikedColors profile = Some disliked → colour ∉ disliked)
    ∧ (∀ favorite, favoriteColors profile = Some favorite →
         favorite ≠ [] → colour ∈ favorite)
    ∧ match skinUndertone profile with
      | None | Some neutral => True
      | Some cool => colour ∈ ["blue"; "purple"; "charcoal"; "graphite"; "white"; "teal"]
      | Some warm => colour ∈ ["rust"; "amber"; "copper"; "brown"; "green"; "off white"]
      end.

(** The set of garment ids of an outfit. *)
Definition idSet (c : Combo) : gset string := list_to_set (id <$> items c).

(** [{...x, colorName: n}]. *)
Definition withColorName (n : string) (x : Garment) : Garment :=
  {| id := id x; name := name x; type := type x; colorHex := colorHex x;
     colorName := n; imageDataUrl := imageDataUrl x; tags := tags x;
     season := season x |}.

(** [y] is [x] up to its stored colour name. *)
Definition SameButColorName (x y : Garment) : Prop :=
  y = withColorName (colorName y) x.

(** An outfit with [f] applied to its items. *)
Definition mapItems (f : Garment → Garment) (c : Combo) : Combo :=
  {| items := f <$> items c; rationale := rationale c |}.

(** A profile that constrains no colour. *)
Definition Unconstrained (profile : CustomerProfile) : Prop :=
  (dislikedColors profile = None ∨ dislikedColors profile = Some [])
  ∧ (favoriteColors profile = None ∨ favoriteColors profile = Some [])
  ∧ (skinUndertone profile = None ∨ skinUndertone profile = Some neutral).

(** ** Sample wardrobes and profiles *)

(** A garment with the fields the engine reads. *)
Definition garment (i : string) (ty : GarmentType) (hex : string) : Garment :=
  {| id := i; name := i; type := ty; colorHex := hex; colorName := "";
     imageDataUrl := ""; tags := []; season := None |}.

Definition unconstrained : CustomerProfile :=
  {| bodyType := None; skinUndertone := None; preferredStyles := [];
     favoriteColors := None; dislikedColors := None; formalityScale := None |}.

Definition coolProfile : CustomerProfile :=
  {| bodyType := Some triangle; skinUndertone := Some cool;
     preferredStyles := [classic];
     favoriteColors := Some ["blue"; "white"; "purple"];
     dislikedColors := Some ["red"]; formalityScale := Some 3 |}.

Definition blueTop := garment "t1" top "#2a7fb8".
Definition whiteBottom := garment "b1" bottom "#ffffff".
Definition purpleShoes := garment "s1" shoes "#8e44ad".
Definition coolWardrobe : list Garment :=
  [ garment "t0" top "#c0392b"; blueTop; whiteBottom; purpleShoes ].

Definition blackTop := garment "t1" top "#000000".
Definition redTop := garment "t2" top "#ff0000".
Definition blueBottom := garment "b2" bottom "#0000ff".
Definition fourGarments : list Garment := [blackTop; redTop; whiteBottom; blueBottom].

(** A wardrobe without contrast: a dress with shoes of its colour, a top
    with a bottom of a close colour. *)
Definition tonalGarments : list Garment :=
  [ garment "d1" dress "#c0392b"; garment "s1" shoes "#c0392b";
    garment "t1" top "#000000"; garment "b1" bottom "#101010" ].

(** A wardrobe in which two garments share the id ["x"] and two the id
    ["y"]. *)
Definition repeatedIds : list Garment :=
  [ garment "x" top "#000000"; garment "y" top "#ff0000";
    garment "x" bottom "#ffffff"; garment "y" shoes "#000000" ].

(** A black top and a bottom of colour [hex]. *)
Definition charcoalPair (hex : string) : list Garment :=
  [ garment "t1" top "#000000"; garment "b1" bottom hex ].

Definition coolOutfit : Combo :=
  {| items := [blueTop; whiteBottom; purpleShoes];
     rationale := [ "Top (blue) with white bottom for contrast";
                    "Monochromatic column from top to shoe to elongate silhouette";
                    "Structured shoulder or boat-neck to broaden upper body" ] |}.

(** * The rest of the application *)

(** ** More of JavaScript's strings *)

Module JsString.

(** [toLowerCase] on one code unit below 256: the ASCII capitals and the
    Latin-1 capitals (all of [0xC0 .. 0xDE] but the multiplication sign). *)
Definition toLowerChar (c : ascii) : ascii :=
  let n := Z.of_N (N_of_ascii c) in
  if ((65 <=? n) && (n <=? 90)) || ((192 <=? n) && (n <=? 222) && negb (n =? 215))
  then ascii_of_N (N_of_ascii c + 32)
  else c.

Fixpoint toLowerCase (s : string) : string :=
  match s with
  | String c s' => String (toLowerChar c) (toLowerCase s')
  | EmptyString => EmptyString
  end.

(** [s.includes(k)]: [k] occurs in [s]. *)
Fixpoint includes (k s : string) : bool :=
  String.prefix k s
  || match s with
     | String _ s' => includes k s'
     | EmptyString => false
     end.

(** [/k1|k2|.../.test(s)] for literal alternatives. *)
Definition testAny (alternatives : list string) (s : string) : bool :=
  existsb (fun k => includes k s) alternatives.

(** [s.split(sep)] for a one-character separator. *)
Fixpoint split (sep : ascii) (s : string) : list string :=
  match s with
  | EmptyString => [EmptyString]
  | String c s' =>
      if Ascii.eqb c sep then EmptyString :: split sep s'
      else match split sep s' with
           | piece :: pieces => String c piece :: pieces
           | [] => [String c EmptyString]
           end
  end.

Fixpoint trimEnd (s : string) : string :=
  match s with
  | EmptyString => EmptyString
  | String c s' =>
      match trimEnd s' with
      | EmptyString => if Js.isWhiteSpace c then EmptyString else String c EmptyString
      | t => String c t
      end
  end.

(** [s.trim()]. *)
Definition trim (s : string) : string := trimEnd (Js.trimStart s).

(** The truthiness of a string. *)
Definition truthy (s : string) : bool := negb (String.eqb s "").

(** The digit of [d] in radix 16, for [0 <= d < 16]. *)
Definition hexChar (d : Z) : ascii :=
  ascii_of_N (Z.to_N (if d <? 10 then 48 + d else 87 + d)).

(** The digits of [n > 0] in radix 16, most significant first, in front of
    [acc]; [fuel] bounds the number of digits. *)
Fixpoint digits16 (fuel : nat) (n : Z) (acc : string) : string :=
  match fuel with
  | O => acc
  | S fuel' =>
      if n <? 16 then String (hexChar n) acc
      else digits16 fuel' (n / 16) (String (hexChar (n mod 16)) acc)
  end.

(** [v.toString(16)] for an integer [v]. *)
Definition toString16 (v : Z) : string :=
  let digits m := digits16 (S (Z.to_nat (Z.log2 m))) m EmptyString in
  if v <? 0 then String "-" (digits (- v)) else digits v.

(** [s.padStart(n, '0')]. *)
Definition padStart0 (n : nat) (s : string) : string :=
  String.concat "" (repeat "0" (n - String.length s)) +:+ s.

End JsString.

(** ** Colours out of pixels *)

(** [r], [g], [b] are integers here; the callers pass rounded averages. *)
Definition rgbToHex (r g b : Z) : string :=
  "#" +:+ String.concat ""
            ((fun v => JsString.padStart0 2 (JsString.toString16 v)) <$> [r; g; b]).

(** [Math.round(s / n)] for integers [s >= 0] and [n > 0] whose quotient is
    exact in a double, as it is for [n = 256]: halves go up. *)
Definition roundedMean (s n : Z) : Z := (2 * s + n) / (2 * n).

(** The indices [i = (y*W + x) * 4] visited by the two loops, in order. *)
Definition sampleOffsets : list nat :=
  y ← seq 0 16; x ← seq 0 16; [((5 * y) * 80 + 5 * x) * 4]%nat.

(** One iteration of the inner loop, on [(r, g, b, n)]. *)
Definition sampleStep (data : nat -> Z) (st : Z * Z * Z * Z) (i : nat)
  : Z * Z * Z * Z :=
  let '(r, g, b, n) := st in
  (r + data i, g + data (i + 1)%nat, b + data (i + 2)%nat, n + 1).

(** [extractDominantColor] from the pixel array on: [data] is the content of
    [ctx.getImageData(0,0,W,H).data], the 80 x 80 x 4 bytes of the scaled
    image.  Loading and drawing the file is left outside. *)
Definition extractDominantColor (data : nat -> Z) : string :=
  let '(r, g, b, n) := fold_left (sampleStep data) sampleOffsets (0, 0, 0, 0) in
  let r := roundedMean r n in
  let g := roundedMean g n in
  let b := roundedMean b n in
  rgbToHex r g b.

(** ** Guessing the type of a garment *)

Definition guessTypeFromFilename (fileName : string) : GarmentType :=
  let n := JsString.toLowerCase fileName in
  if JsString.testAny ["dress"; "gown"] n then dress
  else if JsString.testAny ["coat"; "jacket"; "hoodie"; "blazer"; "parka"] n then outerwear
  else if JsString.testAny ["jean"; "pant"; "trouser"; "short"] n then bottom
  else if JsString.testAny ["shoe"; "sneaker"; "boot"; "heel"; "loafer"] n then shoes
  else if JsString.testAny ["belt"; "hat"; "cap"; "scarf"; "bag"] n then accessory
  else top.

(** ** The state of [App] and its updaters *)

(** [Partial<Garment>]: a field is [None] when the patch has no such key. *)
Record GarmentPatch := {
  patch_id : option string;
  patch_name : option string;
  patch_type : option GarmentType;
  patch_colorHex : option string;
  patch_colorName : option string;
  patch_imageDataUrl : option string;
  patch_tags : option (list string);
  patch_season : option (option (list Season))
}.

(** [{...g, ...patch}]. *)
Definition applyPatch (x : Garment) (patch : GarmentPatch) : Garment :=
  {| id := default (id x) (patch_id patch);
     name := default (name x) (patch_name patch);
     type := default (type x) (patch_type patch);
     colorHex := default (colorHex x) (patch_colorHex patch);
     colorName := default (colorName x) (patch_colorName patch);
     imageDataUrl := default (imageDataUrl x) (patch_imageDataUrl patch);
     tags := default (tags x) (patch_tags patch);
     season := default (season x) (patch_season patch) |}.

(** The updater passed to [setGarments] by [removeGarment(id)]. *)
Definition removeGarment (i : string) (prev : list Garment) : list Garment :=
  List.filter (fun x => negb (String.eqb (id x) i)) prev.

(** The updater passed to [setGarments] by [updateGarment(id, patch)]. *)
Definition updateGarment (i : string) (patch : GarmentPatch) (prev : list Garment)
  : list Garment :=
  (fun x => if String.eqb (id x) i then applyPatch x patch else x) <$> prev.

(** The [type] of the wardrobe filter: a garment type or ['all']. *)
Inductive TypeChoice := all | only (t : GarmentType).

Record WardrobeFilter := {
  filter_type : option TypeChoice;
  filter_color : option string;
  filter_q : option string
}.

(** [x && ...] for an optional string [x]. *)
Definition whenTruthy (x : option string) (test : string -> bool) : bool :=
  match x with
  | Some s => JsString.truthy s && test s
  | None => false
  end.

(** The predicate of [filteredGarments]. *)
Definition keptByFilter (f : WardrobeFilter) (x : Garment) : bool :=
  if match filter_type f with
     | Some (only t) => negb (bool_decide (type x = t))
     | Some all | None => false
     end
  then false
  else if whenTruthy (filter_color f)
            (fun c => negb (bool_decide (nameNearestColor (colorHex x) = Some c)))
  then false
  else if whenTruthy (filter_q f)
            (fun q => negb (JsString.includes (JsString.toLowerCase q)
                              (JsString.toLowerCase
                                 (name x +:+ " " +:+ String.concat " " (tags x)))))
  then false
  else true.

Definition filteredGarments (garments : list Garment) (f : WardrobeFilter)
  : list Garment :=
  List.filter (keptByFilter f) garments.

#[global] Instance StyleVibe_eq_dec : EqDecision StyleVibe.
Proof. solve_decision. Defined.

(** The new [preferredStyles] when the button of style [s] is clicked. *)
Definition toggleStyle (s : StyleVibe) (styles : list StyleVibe) : list StyleVibe :=
  if bool_decide (s ∈ styles)
  then List.filter (fun x => negb (bool_decide (x = s))) styles
  else styles ++ [s].

(** [text.split(',').map(s => s.trim()).filter(Boolean)], the reading of the
    colour and tag fields. *)
Definition parseNames (text : string) : list string :=
  List.filter JsString.truthy (JsString.trim <$> JsString.split "," text).

(** [names.join(', ')], what these fields display. *)
Definition showNames (names : list string) : string := String.concat ", " names.

(** [fileName.replace(/\.[^.]+$/, '')]: the leftmost dot followed by one or
    more characters other than a dot up to the end is where the match
    starts. *)
Fixpoint noDot (s : string) : bool :=
  match s with
  | String c s' => negb (Ascii.eqb c ".") && noDot s'
  | EmptyString => true
  end.

Fixpoint stripExtension (s : string) : string :=
  match s with
  | EmptyString => EmptyString
  | String c s' =>
      if Ascii.eqb c "." && JsString.truthy s' && noDot s' then EmptyString
      else String c (stripExtension s')
  end.

(** The garment [handleFiles] makes of an image file, given the id drawn
    for it, its dominant colour and its data URL.  The colour name is the
    value of [nameNearestColor], which is never [undefined]. *)
Definition newGarment (uid fileName colorHex_ imageDataUrl_ : string) : Garment :=
  {| id := uid;
     name := stripExtension fileName;
     type := guessTypeFromFilename fileName;
     colorHex := colorHex_;
     colorName := Js.toString (nameNearestColor colorHex_);
     imageDataUrl := imageDataUrl_;
     tags := [];
     season := None |}.

(** ** Vocabulary of the further properties *)

(** The order in which [guessTypeFromFilename] tries the types. *)
Definition guessRank (t : GarmentType) : nat :=
  match t with
  | dress => 0 | outerwear => 1 | bottom => 2 | shoes => 3 | accessory => 4 | top => 5
  end.

(** The advice lines of a top outfit, by body type. *)
Definition adviceFor (body : option BodyType) : list string :=
  match body with
  | Some rectangle | Some hourglass => ["Tuck or belt to define waistline"]
  | Some triangle =>
      [ "Monochromatic column from top to shoe to elongate silhouette";
        "Structured shoulder or boat-neck to broaden upper body" ]
  | Some oval => ["Monochromatic column from top to shoe to elongate silhouette"]
  | Some invertedTriangle | None => []
  end.


(** The sum of [data[i + k]] over the sampled offsets [i]. *)
Definition channelSum (data : nat -> Z) (k : nat) : Z :=
  foldr (fun i acc => data (i + k)%nat + acc) 0 sampleOffsets.

(** The function [updateGarment] maps over the wardrobe. *)
Definition patched (i : string) (patch : GarmentPatch) (x : Garment) : Garment :=
  if String.eqb (id x) i then applyPatch x patch else x.

(** Eight black tops and a white bottom. *)
Definition eightTops : list Garment := repeat blackTop 8 ++ [whiteBottom].

(** The character [c] occurs in [s]. *)
Fixpoint occurs (c : ascii) (s : string) : bool :=
  match s with
  | String x s' => Ascii.eqb x c || occurs c s'
  | EmptyString => false
  end.

(** A name as the colour and tag fields store it: not empty, without white
    space around it and without comma. *)
Definition CleanName (s : string) : Prop :=
  s ≠ "" ∧ JsString.trim s = s ∧ occurs "," s = false.

(** Every character of [s] is white space. *)
Fixpoint allWhite (s : string) : bool :=
  match s with
  | String c s' => Js.isWhiteSpace c && allWhite s'
  | EmptyString => true
  end.

(** A blank field: every character of [s] is white space or a comma. *)
Fixpoint blankField (s : string) : bool :=
  match s with
  | String c s' => (Js.isWhiteSpace c || Ascii.eqb c ",") && blankField s'
  | EmptyString => true
  end.

(** Every character of [s] is a hex digit. *)
Fixpoint allHex (s : string) : bool :=
  match s with
  | String c s' => bool_decide (is_Some (Js.hexDigit c)) && allHex s'
  | EmptyString => true
  end.

(** What [parseInt(_, 16)] does once white space and sign are read. *)
Definition parseDigits16 (negative : bool) (s : string) : Js.number :=
  let s :=
    match s with
    | String "0" (String "x" s') => s'
    | String "0" (String "X" s') => s'
    | _ => s
    end in
  match Js.hexPrefix s 0%nat 0 with
  | (O, _) => Js.NaN
  | (_, m) => Js.roundToDouble negative m
  end.

(** * Properties *)

(** Case analysis on membership in an explicit list. *)
Ltac list_cases :=
  repeat match goal with
    | H : _ ∈ [] |- _ => by apply elem_of_nil in H
    | H : _ ∈ _ :: _ |- _ => apply elem_of_cons in H as [->|H]
    end.

(** ** Evaluation on samples *)

Example hexToRgb_red : hexToRgb "#C0392B" = {| r := 192; g := 57; b := 43 |}.
Proof. reflexivity. Qed.

Example hexToRgb_short : hexToRgb "#fa0" = {| r := 255; g := 170; b := 0 |}.
Proof. reflexivity. Qed.

Example hexToRgb_not_a_colour : hexToRgb "navy" = {| r := 0; g := 0; b := 0 |}.
Proof. reflexivity. Qed.

Example nameNearestColor_111111 : nameNearestColor "#111111" = Some "black".
Proof. reflexivity. Qed.

(** One black top and one white bottom, no constraint: one outfit. *)
Example mixAndMatch_black_white :
  mixAndMatch [blackTop; whiteBottom] unconstrained
  = [ {| items := [blackTop; whiteBottom];
         rationale := ["Top (black) with white bottom for contrast"] |} ].
Proof. reflexivity. Qed.

(** The same wardrobe when white is disliked: nothing. *)
Example mixAndMatch_white_disliked :
  mixAndMatch [blackTop; whiteBottom]
    {| bodyType := None; skinUndertone := None; preferredStyles := [];
       favoriteColors := None; dislikedColors := Some ["white"];
       formalityScale := None |}
  = [].
Proof. reflexivity. Qed.

(** ** Colour channels *)

Lemma land_255_range (x : Z) : 0 ≤ Z.land x 255 ≤ 255.
Proof.
  assert (Z.land x 255 = x mod 256) as ->
    by (change 255 with (Z.ones 8); apply Z.land_ones; lia).
  pose proof (Z.mod_pos_bound x 256). lia.
Qed.

(** Whatever the string, each channel is a byte. *)
Lemma hexToRgb_range (hex : string) :
  0 ≤ r (hexToRgb hex) ≤ 255
  ∧ 0 ≤ g (hexToRgb hex) ≤ 255
  ∧ 0 ≤ b (hexToRgb hex) ≤ 255.
Proof. unfold hexToRgb. cbn [r g b]. repeat split; apply land_255_range. Qed.

(** The radicand of a colour distance is a natural number below [2^18]. *)
Lemma squaredDistance_range (hex1 hex2 : string) :
  0 ≤ squaredDistance (hexToRgb hex1) (hexToRgb hex2) ≤ 195075.
Proof.
  pose proof (hexToRgb_range hex1). pose proof (hexToRgb_range hex2).
  unfold squaredDistance. nia.
Qed.

(** ** The colour namer *)

Section NearestKey.

Variable hex : string.

Lemma nearestStep_scan keys init :
  FirstNearest hex keys init (fold_left (nearestStep hex) keys (init, Infinity)).
Proof.
  induction keys as [|k keys IH] using rev_ind; [by left|].
  right. rewrite fold_left_app. cbn [fold_left].
  destruct IH as [[Hk Hst]|(i & key & Hi & Hst & Hmin & Hfirst)]; rewrite Hst.
  - subst keys. exists 0%nat, k. cbn. repeat split; [|intros j k' Hj; lia].
    intros [|j] k' Hj; cbn in Hj; [|done]. injection Hj as <-. reflexivity.
  - unfold nearestStep, colorDistance. cbn [snd Distance_ltb]. fold (radicand hex k).
    destruct (Z.ltb_spec (radicand hex k) (radicand hex key)) as [Hlt|Hge].
    + exists (length keys), k. repeat split.
      * by rewrite list_lookup_middle.
      * intros j k' [Hj|[? Hj]]%lookup_app_Some.
        -- specialize (Hmin j k' Hj). lia.
        -- destruct (j - length keys)%nat; cbn in Hj; [|done].
           injection Hj as <-. lia.
      * intros j k' Hlen Hj. rewrite lookup_app_l in Hj by done.
        specialize (Hmin j k' Hj). lia.
    + exists i, key. repeat split.
      * by apply lookup_app_l_Some.
      * intros j k' [Hj|[? Hj]]%lookup_app_Some; [by eapply Hmin|].
        destruct (j - length keys)%nat; cbn in Hj; [|done].
        injection Hj as <-. done.
      * intros j k' Hlt Hj. apply (Hfirst j k' Hlt).
        apply lookup_lt_Some in Hi.
        rewrite lookup_app_l in Hj by lia. done.
Qed.

Lemma nearestKey_first keys :
  keys ≠ [] → FirstNearest hex keys (nth 0 keys "undefined") (nearestKey hex keys).
Proof. intros _. apply nearestStep_scan. Qed.

End NearestKey.

Lemma getProperty_lookup (obj : list (string * string)) (i : nat) key value :
  NoDup (fst <$> obj) → obj !! i = Some (key, value) → getProperty obj key = Some value.
Proof.
  unfold getProperty. revert i. induction obj as [|[k v] obj IH]; intros i Hnd Hi; [done|].
  rewrite fmap_cons in Hnd. apply NoDup_cons in Hnd as [Hk Hnd].
  cbn [List.find fst] in *.
  destruct (String.eqb_spec k key) as [->|Hne].
  - destruct i as [|i]; [by injection Hi as ->|].
    change (obj !! i = Some (key, value)) in Hi.
    exfalso. apply Hk. apply list_elem_of_lookup. exists i.
    by rewrite list_lookup_fmap, Hi.
  - destruct i as [|i]; [injection Hi as ? ?; congruence|]. by eapply IH.
Qed.

Lemma NAMED_KEYS_NoDup : NoDup NAMED_KEYS.
Proof. apply (bool_decide_unpack _). vm_compute. exact I. Qed.

(** The key the loop ends on is a key of the palette. *)
Lemma nearestKey_entry (hex : string) :
  ∃ (i : nat) key name_,
    NAMED_COLORS !! i = Some (key, name_) ∧ fst (nearestKey hex NAMED_KEYS) = key.
Proof.
  destruct (nearestKey_first hex NAMED_KEYS) as [[? _]|(i & key & Hi & -> & _)];
    [done|done|].
  unfold NAMED_KEYS in Hi. rewrite list_lookup_fmap in Hi.
  destruct (NAMED_COLORS !! i) as [[key0 name0]|] eqn:Hentry; [|done].
  cbn in Hi. injection Hi as ->. by exists i, key, name0.
Qed.

(** The result is always a defined value, a name of the palette. *)
Lemma nameNearestColor_defined (hex : string) :
  ∃ colour, nameNearestColor hex = Some colour ∧ colour ∈ paletteNames.
Proof.
  destruct (nearestKey_entry hex) as (i & key & colour & Hentry & Hkey).
  exists colour. split.
  - unfold nameNearestColor. rewrite Hkey.
    eapply getProperty_lookup; [apply NAMED_KEYS_NoDup|done].
  - apply list_elem_of_lookup. exists i. unfold paletteNames.
    by rewrite list_lookup_fmap, Hentry.
Qed.

(** ** Arrays: [filter], [find], [forEach] with [push] *)

Section ArrayFacts.

Context {A : Type}.
Implicit Types (p q : A → bool) (l : list A).

Lemma elem_of_filter_bool p l x : x ∈ List.filter p l ↔ x ∈ l ∧ p x = true.
Proof. rewrite !list_elem_of_In. apply filter_In. Qed.

Lemma filter_bool_sublist p l : List.filter p l `sublist_of` l.
Proof.
  induction l as [|x l IH]; cbn; [constructor|].
  destruct (p x); by constructor.
Qed.

Lemma filter_bool_filter p q l :
  List.filter p (List.filter q l) = List.filter (λ x, q x && p x) l.
Proof.
  induction l as [|x l IH]; cbn; [done|].
  destruct (q x); cbn; [destruct (p x)|]; by rewrite IH.
Qed.

Lemma find_FirstMatch p l : FirstMatch (λ x, p x = true) l (List.find p l).
Proof.
  induction l as [|x l IH]; cbn; [constructor|].
  destruct (p x) eqn:Hx.
  - exists [], l. by repeat split.
  - destruct (List.find p l) as [y|]; cbn in *.
    + destruct IH as (before & after & -> & Hy & Hbefore).
      exists (x :: before), after. repeat split; [done|].
      constructor; [congruence|done].
    + constructor; [congruence|done].
Qed.

Lemma FirstMatch_iff (P Q : A → Prop) l o :
  (∀ x, P x ↔ Q x) → FirstMatch P l o → FirstMatch Q l o.
Proof.
  intros HPQ. destruct o as [x|]; cbn.
  - intros (before & after & -> & Hx & Hbefore). exists before, after.
    repeat split; [by apply HPQ|]. eapply Forall_impl; [done|].
    intros y Hy HQ. by apply Hy, HPQ.
  - intros H. eapply Forall_impl; [done|]. intros y Hy HQ. by apply Hy, HPQ.
Qed.

Lemma FirstMatch_Some_elem (P : A → Prop) l x :
  FirstMatch P l (Some x) → x ∈ l ∧ P x.
Proof. intros (before & after & -> & Hx & _). split; [set_solver|done]. Qed.

(** A loop whose body only pushes onto the accumulator. *)
Lemma fold_left_push {B} (step : list B → A → list B) l (acc : list B) :
  (∀ acc x, step acc x = acc ++ step [] x) →
  fold_left step l acc = acc ++ flat_map (step []) l.
Proof.
  intros Hstep. revert acc. induction l as [|x l IH]; intros acc; cbn.
  - by rewrite app_nil_r.
  - by rewrite IH, (Hstep acc x), <-app_assoc.
Qed.

Lemma elem_of_flat_map {B} (f : A → list B) l y :
  y ∈ flat_map f l ↔ ∃ x, x ∈ l ∧ y ∈ f x.
Proof.
  rewrite list_elem_of_In, in_flat_map. setoid_rewrite list_elem_of_In. done.
Qed.

Lemma NoDup_fmap_eq {B} (f : A → B) l x y :
  NoDup (f <$> l) → x ∈ l → y ∈ l → f x = f y → x = y.
Proof.
  induction l as [|z l IH]; [by intros _ ?%elem_of_nil|].
  rewrite fmap_cons, NoDup_cons. intros [Hz Hnd] Hx Hy Hf.
  apply elem_of_cons in Hx as [->|Hx], Hy as [->|Hy]; [done| | |by apply IH].
  - exfalso. apply Hz. rewrite Hf. by apply list_elem_of_fmap_2.
  - exfalso. apply Hz. rewrite <-Hf. by apply list_elem_of_fmap_2.
Qed.

End ArrayFacts.

(** ** Deduplication *)

Section FirstOccurrences.

Context {A : Type} (key : A → string).

Lemma firstOccurrences_sublist l : firstOccurrences key l `sublist_of` l.
Proof.
  induction l as [|x l IH]; cbn; [constructor|].
  constructor. etrans; [apply filter_bool_sublist|done].
Qed.

Lemma firstOccurrences_keys l x :
  x ∈ l → key x ∈ key <$> firstOccurrences key l.
Proof.
  induction l as [|y l IH]; [by intros ?%elem_of_nil|].
  intros [->|Hx]%elem_of_cons; cbn; [left|].
  destruct (String.eqb_spec (key x) (key y)) as [->|Hne]; [left|right].
  apply IH in Hx. apply list_elem_of_fmap in Hx as (z & Hz1 & Hz2).
  rewrite Hz1. apply list_elem_of_fmap_2, elem_of_filter_bool. split; [done|].
  rewrite <-Hz1. by apply negb_true_iff, String.eqb_neq.
Qed.

(** An element is kept exactly when its key has not been met before. *)
Lemma firstOccurrences_snoc l x :
  firstOccurrences key (l ++ [x])
  = firstOccurrences key l
    ++ (if bool_decide (key x ∈ key <$> l) then [] else [x]).
Proof.
  induction l as [|y l IH]; [done|]. cbn [app firstOccurrences].
  rewrite IH, List.filter_app, fmap_cons. f_equal. f_equal.
  destruct (String.eqb_spec (key x) (key y)) as [Heq|Hne].
  - rewrite (bool_decide_eq_true_2 (key x ∈ key y :: (key <$> l)))
      by (rewrite Heq; left).
    case_bool_decide; [done|]. cbn. by rewrite Heq, String.eqb_refl.
  - destruct (decide (key x ∈ key <$> l)) as [Hin|Hin].
    + rewrite !bool_decide_eq_true_2; [done|by right|done].
    + assert (key x ∉ key y :: (key <$> l)) as Hin'
        by (intros [?|?]%elem_of_cons; done).
      rewrite !bool_decide_eq_false_2 by done.
      cbn. by rewrite (proj2 (String.eqb_neq _ _) Hne).
Qed.

Lemma firstOccurrences_NoDup l : NoDup (key <$> firstOccurrences key l).
Proof.
  induction l as [|x l IH]; cbn [firstOccurrences]; [constructor|].
  rewrite fmap_cons. apply NoDup_cons. split.
  - intros (y & Hy & [_ Hne]%elem_of_filter_bool)%list_elem_of_fmap.
    rewrite Hy, String.eqb_refl in Hne. done.
  - eapply sublist_NoDup; [exact IH|apply fmap_sublist, filter_bool_sublist].
Qed.

End FirstOccurrences.

Lemma firstOccurrences_ext {A} (key key' : A → string) (l : list A) :
  (∀ x, key x = key' x) → firstOccurrences key l = firstOccurrences key' l.
Proof.
  intros Hkey. induction l as [|x l IH]; [done|]. cbn. rewrite IH. f_equal.
  apply filter_ext. intros y. by rewrite !Hkey.
Qed.

(** The loop over [filtered], started on any [(uniq, seen)]. *)
Lemma dedupStep_fold (l uniq : list Combo) (seen : gset string) :
  (fold_left dedupStep l (uniq, seen)).1
  = uniq ++ List.filter (λ c, negb (bool_decide (comboKey c ∈ seen)))
                        (firstOccurrences comboKey l).
Proof.
  revert uniq seen. induction l as [|c l IH]; intros uniq seen;
    cbn [fold_left firstOccurrences List.filter]; [by rewrite app_nil_r|].
  unfold dedupStep at 2. cbn [fst snd]. case_bool_decide as Hseen; cbn [negb].
  - rewrite IH, filter_bool_filter. f_equal. apply filter_ext_in.
    intros x _. destruct (String.eqb_spec (comboKey x) (comboKey c)) as [->|_]; [|done].
    by rewrite bool_decide_eq_true_2.
  - rewrite IH, <-app_assoc, filter_bool_filter. cbn [app]. do 2 f_equal.
    apply filter_ext_in. intros x _.
    destruct (String.eqb_spec (comboKey x) (comboKey c)) as [->|Hne]; cbn.
    + rewrite bool_decide_eq_true_2; [done|].
      by apply elem_of_union_l, elem_of_singleton.
    + apply (f_equal negb), bool_decide_ext.
      rewrite elem_of_union, elem_of_singleton.
      split; [by intros [?|?]|by right].
Qed.

Lemma mixAndMatch_unfold garments profile :
  mixAndMatch garments profile
  = take 12 (firstOccurrences comboKey
      (List.filter (λ c, forallb (itemAccepted profile) (items c))
         (candidates garments profile))).
Proof.
  unfold mixAndMatch.
  pose proof (dedupStep_fold
    (List.filter (λ c, forallb (itemAccepted profile) (items c))
       (candidates garments profile)) [] ∅) as H.
  destruct (fold_left dedupStep _ _) as [uniq seen]. cbn [fst] in H. rewrite H.
  cbn [app]. f_equal. apply forallb_filter_id, forallb_forall. intros c _.
  by rewrite bool_decide_eq_false_2.
Qed.

(** ** Candidate outfits *)

Lemma contrasts_Farther t y x : contrasts t y x = true ↔ Farther t x y.
Proof.
  unfold contrasts, exceeds, colorDistance, ofInteger, Farther. cbn.
  apply Z.ltb_lt.
Qed.

Lemma find_contrasts t y l :
  FirstMatch (λ x, Farther t x y) l (List.find (contrasts t y) l).
Proof.
  apply (FirstMatch_iff (λ x, contrasts t y x = true)).
  - intros x. apply contrasts_Farther.
  - apply find_FirstMatch.
Qed.

Lemma elem_of_partition ty (garments : list Garment) x :
  x ∈ List.filter (hasType ty) garments ↔ x ∈ garments ∧ type x = ty.
Proof. rewrite elem_of_filter_bool. unfold hasType. by rewrite bool_decide_eq_true. Qed.

Lemma dressStep_push outers shoes combos d :
  dressStep outers shoes combos d = combos ++ dressStep outers shoes [] d.
Proof. unfold dressStep. destruct (List.find _ shoes); [done|by rewrite app_nil_r]. Qed.

Lemma topStep_push bottoms outers shoes rules combos t :
  topStep bottoms outers shoes rules combos t
  = combos ++ topStep bottoms outers shoes rules [] t.
Proof. unfold topStep. destruct (List.find _ bottoms); [done|by rewrite app_nil_r]. Qed.

(** What one dress contributes to [combos]. *)
Lemma dressStep_cases outers shoes d :
  (Forall (λ s, ¬ Farther 60 s d) shoes ∧ dressStep outers shoes [] d = [])
  ∨ ∃ c layer shoe,
      dressStep outers shoes [] d = [c]
      ∧ items c = [d] ++ spread layer ++ [shoe]
      ∧ FirstMatch (λ o, Farther 90 o d) outers layer
      ∧ FirstMatch (λ s, Farther 60 s d) shoes (Some shoe).
Proof.
  pose proof (find_contrasts 90 d outers) as Hlayer.
  pose proof (find_contrasts 60 d shoes) as Hshoe.
  unfold dressStep. destruct (List.find (contrasts 60 d) shoes) as [shoe|].
  - right. eexists _, (List.find (contrasts 90 d) outers), shoe. by repeat split.
  - by left.
Qed.

(** What one top contributes to [combos]. *)
Lemma topStep_cases bottoms outers shoes rules t :
  (Forall (λ x, ¬ Farther 80 x t) bottoms ∧ topStep bottoms outers shoes rules [] t = [])
  ∨ ∃ c bottom_ layer shoe,
      topStep bottoms outers shoes rules [] t = [c]
      ∧ items c = [t; bottom_] ++ spread layer ++ spread shoe
      ∧ FirstMatch (λ x, Farther 80 x t) bottoms (Some bottom_)
      ∧ FirstMatch (λ o, Farther 90 o t) outers layer
      ∧ FirstMatch (λ s, Farther 60 s bottom_) shoes shoe.
Proof.
  pose proof (find_contrasts 80 t bottoms) as Hbottom.
  pose proof (find_contrasts 90 t outers) as Hlayer.
  unfold topStep. destruct (List.find (contrasts 80 t) bottoms) as [bottom_|].
  - right. eexists _, bottom_, (List.find (contrasts 90 t) outers),
      (List.find (contrasts 60 bottom_) shoes).
    repeat split; try done. apply find_contrasts.
  - by left.
Qed.

Lemma candidates_unfold garments profile :
  candidates garments profile
  = flat_map (dressStep (List.filter (hasType outerwear) garments)
                (List.filter (hasType shoes) garments) [])
      (take 6 (List.filter (hasType dress) garments))
    ++ flat_map (topStep (List.filter (hasType bottom) garments)
                   (List.filter (hasType outerwear) garments)
                   (List.filter (hasType shoes) garments) (buildRules profile) [])
         (take 8 (List.filter (hasType top) garments)).
Proof.
  unfold candidates.
  rewrite (fold_left_push (topStep _ _ _ _)) by (intros; apply topStep_push).
  rewrite (fold_left_push (dressStep _ _)) by (intros; apply dressStep_push).
  done.
Qed.

Lemma FirstMatch_partition (P : Garment → Prop) ty garments o x :
  FirstMatch P (List.filter (hasType ty) garments) o → o = Some x →
  x ∈ garments ∧ type x = ty.
Proof. intros H ->. by apply FirstMatch_Some_elem in H as [?%elem_of_partition _]. Qed.

Lemma candidates_shape garments profile c :
  c ∈ candidates garments profile → DressOutfit garments c ∨ TopOutfit garments c.
Proof.
  rewrite candidates_unfold, elem_of_app, !elem_of_flat_map.
  intros [(d & Hd & Hc)|(t & Ht & Hc)].
  - left. apply subseteq_take, elem_of_partition in Hd.
    destruct (dressStep_cases (List.filter (hasType outerwear) garments)
                (List.filter (hasType shoes) garments) d)
      as [[_ Hnone]|(c' & layer & shoe & Hsome & Hitems & Hlayer & Hshoe)].
    + rewrite Hnone in Hc. by apply elem_of_nil in Hc.
    + rewrite Hsome in Hc. apply list_elem_of_singleton in Hc as ->.
      exists d, layer, shoe. split; [done|]. split; [done|].
      split; [intros o Ho|]; by eapply FirstMatch_partition.
  - right. apply subseteq_take, elem_of_partition in Ht.
    destruct (topStep_cases (List.filter (hasType bottom) garments)
                (List.filter (hasType outerwear) garments)
                (List.filter (hasType shoes) garments) (buildRules profile) t)
      as [[_ Hnone]|(c' & b0 & layer & shoe & Hsome & Hitems & Hb & Hlayer & Hshoe)].
    + rewrite Hnone in Hc. by apply elem_of_nil in Hc.
    + rewrite Hsome in Hc. apply list_elem_of_singleton in Hc as ->.
      exists t, b0, layer, shoe.
      split; [done|]. split; [done|]. split; [by eapply FirstMatch_partition|].
      split; intros o Ho; by eapply FirstMatch_partition.
Qed.

(** ** The result of [mixAndMatch] *)

Lemma includes_Some arr s : Js.includes arr (Some s) = true ↔ s ∈ arr.
Proof.
  cbn. rewrite existsb_exists. setoid_rewrite String.eqb_eq.
  setoid_rewrite <-list_elem_of_In. split; [by intros (x & Hx & ->)|by exists s].
Qed.

Lemma includes_Some_false arr s : Js.includes arr (Some s) = false ↔ s ∉ arr.
Proof. rewrite <-includes_Some. by destruct (Js.includes arr (Some s)). Qed.

Lemma itemAccepted_iff profile i :
  itemAccepted profile i = true ↔ AcceptableItem profile i.
Proof.
  unfold itemAccepted, isColorFriendly, AcceptableItem.
  destruct (nameNearestColor_defined (colorHex i)) as (colour & -> & _).
  rewrite !andb_true_iff. split.
  - intros [[Hdis Hfav] Htone]. exists colour. split; [done|]. repeat split.
    + intros disliked Hd. rewrite Hd in Hdis.
      by apply negb_true_iff, includes_Some_false in Hdis.
    + intros favorite Hf Hne. rewrite Hf in Hfav.
      apply orb_true_iff in Hfav as [Hlen|Hin]; [|by apply includes_Some].
      apply Nat.eqb_eq in Hlen. by destruct favorite.
    + destruct (skinUndertone profile) as [[]|]; try done; by apply includes_Some.
  - intros (c & [= <-] & Hdis & Hfav & Htone). repeat split.
    + destruct (dislikedColors profile) as [disliked|]; [|done].
      by apply negb_true_iff, includes_Some_false, Hdis.
    + destruct (favoriteColors profile) as [[|f favorite]|]; [done| |done].
      apply orb_true_iff. right. by apply includes_Some, Hfav.
    + destruct (skinUndertone profile) as [[]|]; try done; by apply includes_Some.
Qed.

Lemma mixAndMatch_sublist garments profile :
  mixAndMatch garments profile
  `sublist_of` List.filter (λ c, forallb (itemAccepted profile) (items c))
                 (candidates garments profile).
Proof.
  rewrite mixAndMatch_unfold.
  etrans; [apply sublist_take|apply firstOccurrences_sublist].
Qed.

Lemma elem_of_mixAndMatch garments profile o :
  o ∈ mixAndMatch garments profile →
  o ∈ candidates garments profile ∧ forallb (itemAccepted profile) (items o) = true.
Proof.
  intros Ho.
  apply (elem_of_filter_bool (λ c, forallb (itemAccepted profile) (items c))).
  eapply sublist_subseteq; [apply mixAndMatch_sublist|done].
Qed.

Lemma DressOutfit_items garments c :
  DressOutfit garments c →
  (2 ≤ length (items c) ≤ 3)%nat
  ∧ (∀ i, i ∈ items c → i ∈ garments ∧ type i ≠ accessory)
  ∧ ∃ first, head (items c) = Some first ∧ type first = dress.
Proof.
  intros (d & layer & shoe & -> & [Hd Hdt] & Hlayer & [Hs Hst]).
  split; [destruct layer; cbn; lia|]. split; [|by exists d].
  intros i Hi. rewrite !elem_of_app, !list_elem_of_singleton in Hi.
  destruct Hi as [->|[Hi| ->]].
  - split; [done|congruence].
  - destruct layer as [o|]; [|by apply elem_of_nil in Hi].
    apply list_elem_of_singleton in Hi as ->.
    destruct (Hlayer o eq_refl) as [? Ht]. split; [done|congruence].
  - split; [done|congruence].
Qed.

Lemma TopOutfit_items garments c :
  TopOutfit garments c →
  (2 ≤ length (items c) ≤ 4)%nat
  ∧ (∀ i, i ∈ items c → i ∈ garments ∧ type i ≠ accessory)
  ∧ ∃ first, head (items c) = Some first ∧ type first = top.
Proof.
  intros (t & b0 & layer & shoe & -> & [Ht Htt] & [Hb Hbt] & Hlayer & Hshoe).
  split; [destruct layer, shoe; cbn; lia|]. split; [|by exists t].
  intros i Hi. rewrite !elem_of_app, !elem_of_cons in Hi.
  destruct Hi as [[->|[->|Hi]]|[Hi|Hi]].
  - split; [done|congruence].
  - split; [done|congruence].
  - by apply elem_of_nil in Hi.
  - destruct layer as [o|]; [|by apply elem_of_nil in Hi].
    apply list_elem_of_singleton in Hi as ->.
    destruct (Hlayer o eq_refl) as [? Ho]. split; [done|congruence].
  - destruct shoe as [s|]; [|by apply elem_of_nil in Hi].
    apply list_elem_of_singleton in Hi as ->.
    destruct (Hshoe s eq_refl) as [? Ho]. split; [done|congruence].
Qed.

(** ** Wardrobes without a pairing *)

Lemma flat_map_nil {A B} (f : A → list B) (l : list A) :
  (∀ x, x ∈ l → f x = []) → flat_map f l = [].
Proof.
  induction l as [|x l IH]; intros H; cbn; [done|].
  rewrite (H x) by left. apply IH. intros y Hy. apply H. by right.
Qed.

Lemma dressStep_no_shoe outers shoes combos d :
  Forall (λ s, ¬ Farther 60 s d) shoes → dressStep outers shoes combos d = combos.
Proof.
  intros Hnone. rewrite dressStep_push.
  destruct (dressStep_cases outers shoes d)
    as [[_ ->]|(c & layer & shoe & _ & _ & _ & Hshoe)]; [by rewrite app_nil_r|].
  apply FirstMatch_Some_elem in Hshoe as [Hin Hfar].
  rewrite Forall_forall in Hnone. by destruct (Hnone shoe Hin).
Qed.

Lemma topStep_no_bottom bottoms outers shoes rules combos t :
  Forall (λ x, ¬ Farther 80 x t) bottoms →
  topStep bottoms outers shoes rules combos t = combos.
Proof.
  intros Hnone. rewrite topStep_push.
  destruct (topStep_cases bottoms outers shoes rules t)
    as [[_ ->]|(c & b0 & layer & shoe & _ & _ & Hb & _)]; [by rewrite app_nil_r|].
  apply FirstMatch_Some_elem in Hb as [Hin Hfar].
  rewrite Forall_forall in Hnone. by destruct (Hnone b0 Hin).
Qed.

Lemma candidates_nil garments profile :
  (∀ d s, d ∈ garments → type d = dress → s ∈ garments → type s = shoes →
     ¬ Farther 60 s d) →
  (∀ t x, t ∈ garments → type t = top → x ∈ garments → type x = bottom →
     ¬ Farther 80 x t) →
  candidates garments profile = [].
Proof.
  intros Hdress Htop. rewrite candidates_unfold.
  rewrite !flat_map_nil; [done| |].
  - intros t [Ht Hty]%subseteq_take%elem_of_partition.
    apply topStep_no_bottom, Forall_forall.
    intros x [Hx Hxty]%elem_of_partition. by apply Htop.
  - intros d [Hd Hty]%subseteq_take%elem_of_partition.
    apply dressStep_no_shoe, Forall_forall.
    intros s [Hs Hsty]%elem_of_partition. by apply Hdress.
Qed.

Lemma mixAndMatch_no_candidates garments profile :
  candidates garments profile = [] → mixAndMatch garments profile = [].
Proof. intros H. by rewrite mixAndMatch_unfold, H. Qed.

(** ** Sorting ids *)

#[global] Instance string_le_total : Total string_le.
Proof. intros s1 s2. apply String.leb_total. Qed.

#[global] Instance string_le_antisym : AntiSymm (=) string_le.
Proof. intros s1 s2. apply String.leb_antisym. Qed.

#[global] Instance string_le_trans : Transitive string_le.
Proof.
  unfold string_le, String.leb. intros s1.
  induction s1 as [|c1 s1 IH]; intros [|c2 s2] [|c3 s3]; cbn; try done.
  unfold Ascii.compare.
  destruct (N.compare_spec (N_of_ascii c1) (N_of_ascii c2)) as [E12|L12|G12];
    destruct (N.compare_spec (N_of_ascii c2) (N_of_ascii c3)) as [E23|L23|G23];
    try done.
  - rewrite E12, E23, N.compare_refl. apply IH.
  - rewrite E12, (proj2 (N.compare_lt_iff _ _) L23). done.
  - rewrite <-E23, (proj2 (N.compare_lt_iff _ _) L12). done.
  - rewrite (proj2 (N.compare_lt_iff _ _) (N.lt_trans _ _ _ L12 L23)). done.
Qed.

(** Sorting forgets the order of a list. *)
Lemma merge_sort_Permutation_eq (l1 l2 : list string) :
  l1 ≡ₚ l2 → merge_sort string_le l1 = merge_sort string_le l2.
Proof.
  intros Hperm. apply (Sorted_unique string_le).
  - apply Sorted_merge_sort, _.
  - apply Sorted_merge_sort, _.
  - by rewrite !merge_sort_Permutation.
Qed.

Lemma comboKey_idSet c1 c2 :
  NoDup (id <$> items c1) → NoDup (id <$> items c2) →
  idSet c1 = idSet c2 → comboKey c1 = comboKey c2.
Proof.
  intros Hnd1 Hnd2 Hset. unfold comboKey. f_equal.
  apply merge_sort_Permutation_eq, NoDup_Permutation; [done|done|].
  intros x. unfold idSet in Hset.
  by rewrite <-(elem_of_list_to_set (C:=gset string) x (id <$> items c1)), Hset,
    elem_of_list_to_set.
Qed.

(** Garments of different types are different garments and, when ids are
    unique in the wardrobe, have different ids. *)
Lemma id_ne_of_type_ne garments x y :
  NoDup (id <$> garments) → x ∈ garments → y ∈ garments → type x ≠ type y →
  id x ≠ id y.
Proof.
  intros Hnd Hx Hy Hty Hid. apply Hty. f_equal. by eapply NoDup_fmap_eq.
Qed.

Lemma candidates_ids_NoDup garments profile c :
  NoDup (id <$> garments) → c ∈ candidates garments profile → NoDup (id <$> items c).
Proof.
  intros Hnd [Hshape|Hshape]%candidates_shape.
  - destruct Hshape as (d & layer & shoe & -> & [Hd Hdt] & Hlayer & [Hs Hst]).
    assert (id d ≠ id shoe) by (eapply id_ne_of_type_ne; [done..|congruence]).
    destruct layer as [o|]; cbn.
    + destruct (Hlayer o eq_refl) as [Ho Hot].
      assert (id d ≠ id o) by (eapply id_ne_of_type_ne; [done..|congruence]).
      assert (id o ≠ id shoe) by (eapply id_ne_of_type_ne; [done..|congruence]).
      repeat (apply NoDup_cons; split); [| |by intros ?%elem_of_nil|constructor];
        rewrite ?elem_of_cons, elem_of_nil; tauto.
    + repeat (apply NoDup_cons; split); [|by intros ?%elem_of_nil|constructor];
        rewrite ?elem_of_cons, elem_of_nil; tauto.
  - destruct Hshape
      as (t & b0 & layer & shoe & -> & [Ht Htt] & [Hb Hbt] & Hlayer & Hshoe).
    assert (id t ≠ id b0) by (eapply id_ne_of_type_ne; [done..|congruence]).
    destruct layer as [o|], shoe as [s|]; cbn;
      try (destruct (Hlayer o eq_refl) as [Ho Hot];
           assert (id t ≠ id o) by (eapply id_ne_of_type_ne; [done..|congruence]);
           assert (id b0 ≠ id o) by (eapply id_ne_of_type_ne; [done..|congruence]));
      try (destruct (Hshoe s eq_refl) as [Hs Hst];
           assert (id t ≠ id s) by (eapply id_ne_of_type_ne; [done..|congruence]);
           assert (id b0 ≠ id s) by (eapply id_ne_of_type_ne; [done..|congruence]));
      try assert (id o ≠ id s) by (eapply id_ne_of_type_ne; [done..|congruence]);
      repeat (apply NoDup_cons; split); try constructor;
      rewrite ?elem_of_cons, ?elem_of_nil; tauto.
Qed.

(** ** Independence from the stored colour name *)

Section MapLemmas.

Context {A B : Type} (f : A → B).

Lemma filter_bool_fmap (p : B → bool) (l : list A) :
  List.filter p (f <$> l) = f <$> List.filter (λ x, p (f x)) l.
Proof.
  induction l as [|x l IH]; [done|]. rewrite fmap_cons. cbn [List.filter].
  destruct (p (f x)); by rewrite IH.
Qed.

Lemma find_fmap (p : B → bool) (l : list A) :
  List.find p (f <$> l) = f <$> List.find (λ x, p (f x)) l.
Proof.
  induction l as [|x l IH]; [done|]. rewrite fmap_cons. cbn [List.find].
  by destruct (p (f x)).
Qed.

Lemma flat_map_fmap_l {C} (h : B → list C) (l : list A) :
  flat_map h (f <$> l) = flat_map (λ x, h (f x)) l.
Proof. induction l as [|x l IH]; [done|]. rewrite fmap_cons. cbn. by rewrite IH. Qed.

Lemma flat_map_fmap_r {C} (h : C → list A) (l : list C) :
  flat_map (λ x, f <$> h x) l = f <$> flat_map h l.
Proof. induction l as [|x l IH]; [done|]. cbn. by rewrite IH, fmap_app. Qed.

Lemma firstOccurrences_fmap (key : B → string) (l : list A) :
  firstOccurrences key (f <$> l) = f <$> firstOccurrences (λ x, key (f x)) l.
Proof.
  induction l as [|x l IH]; [done|]. rewrite fmap_cons. cbn [firstOccurrences].
  by rewrite IH, filter_bool_fmap, fmap_cons.
Qed.

Lemma forallb_fmap (p : B → bool) (l : list A) :
  forallb p (f <$> l) = forallb (λ x, p (f x)) l.
Proof. induction l as [|x l IH]; [done|]. rewrite fmap_cons. cbn. by rewrite IH. Qed.

Lemma fmap_eq_Forall2 (l1 l2 : list A) :
  f <$> l1 = f <$> l2 → Forall2 (λ x y, f x = f y) l1 l2.
Proof.
  revert l2. induction l1 as [|x l1 IH]; intros [|y l2] H; [constructor|done|done|].
  rewrite !fmap_cons in H. injection H as Hxy H. constructor; [done|by apply IH].
Qed.

End MapLemmas.

Lemma find_bool_ext {A} (p q : A → bool) (l : list A) :
  (∀ x, p x = q x) → List.find p l = List.find q l.
Proof.
  intros Hpq. induction l as [|x l IH]; [done|]. cbn. by rewrite Hpq, IH.
Qed.

Section Relabel.

(** A change of the wardrobe that keeps type, colour value and id. *)
Variable f : Garment → Garment.
Hypothesis f_type : ∀ x, type (f x) = type x.
Hypothesis f_colorHex : ∀ x, colorHex (f x) = colorHex x.
Hypothesis f_id : ∀ x, id (f x) = id x.

Lemma partition_relabel ty garments :
  List.filter (hasType ty) (f <$> garments) = f <$> List.filter (hasType ty) garments.
Proof.
  rewrite filter_bool_fmap. f_equal. apply filter_ext.
  intros x. unfold hasType. by rewrite f_type.
Qed.

Lemma find_contrasts_relabel t y l :
  List.find (contrasts t (f y)) (f <$> l) = f <$> List.find (contrasts t y) l.
Proof.
  rewrite find_fmap. f_equal. apply find_bool_ext.
  intros x. unfold contrasts. by rewrite !f_colorHex.
Qed.

Lemma spread_relabel o : spread (f <$> o) = f <$> spread o.
Proof. by destruct o. Qed.

Lemma dressStep_relabel outers shoes d :
  dressStep (f <$> outers) (f <$> shoes) [] (f d)
  = mapItems f <$> dressStep outers shoes [] d.
Proof.
  unfold dressStep. rewrite !find_contrasts_relabel.
  destruct (List.find (contrasts 60 d) shoes) as [shoe|]; [|done].
  destruct (List.find (contrasts 90 d) outers) as [layer|]; cbn;
    by rewrite ?f_colorHex.
Qed.

Lemma topStep_relabel bottoms outers shoes rules t :
  topStep (f <$> bottoms) (f <$> outers) (f <$> shoes) rules [] (f t)
  = mapItems f <$> topStep bottoms outers shoes rules [] t.
Proof.
  unfold topStep. rewrite !find_contrasts_relabel.
  destruct (List.find (contrasts 80 t) bottoms) as [b0|]; [|done]. cbn [fmap option_fmap option_map].
  rewrite !find_contrasts_relabel, !f_colorHex.
  unfold mapItems. cbn [app list_fmap fmap items rationale].
  do 2 f_equal. rewrite !spread_relabel, <-fmap_app. done.
Qed.

Lemma candidates_relabel garments profile :
  candidates (f <$> garments) profile = mapItems f <$> candidates garments profile.
Proof.
  rewrite !candidates_unfold, !partition_relabel, <-!fmap_take, fmap_app.
  rewrite !flat_map_fmap_l, <-!flat_map_fmap_r. f_equal.
  - apply flat_map_ext. intros d. apply dressStep_relabel.
  - apply flat_map_ext. intros t. apply topStep_relabel.
Qed.

Lemma itemAccepted_relabel profile x :
  itemAccepted profile (f x) = itemAccepted profile x.
Proof. unfold itemAccepted. by rewrite f_colorHex. Qed.

Lemma comboKey_relabel c : comboKey (mapItems f c) = comboKey c.
Proof.
  unfold comboKey, mapItems. cbn [items]. rewrite <-list_fmap_compose.
  do 2 f_equal. apply list_fmap_ext. intros _ x _. apply f_id.
Qed.

Lemma mixAndMatch_relabel garments profile :
  mixAndMatch (f <$> garments) profile = mapItems f <$> mixAndMatch garments profile.
Proof.
  rewrite !mixAndMatch_unfold, candidates_relabel, filter_bool_fmap.
  rewrite firstOccurrences_fmap, fmap_take. do 2 f_equal.
  rewrite (firstOccurrences_ext _ comboKey) by apply comboKey_relabel.
  f_equal. apply filter_ext. intros c. unfold mapItems. cbn [items].
  rewrite forallb_fmap. induction (items c) as [|x l IH]; [done|].
  cbn. by rewrite itemAccepted_relabel, IH.
Qed.

End Relabel.

Lemma withColorName_same n x y :
  SameButColorName x y → withColorName n x = withColorName n y.
Proof. intros ->. done. Qed.

Lemma mixAndMatch_colorName garments1 garments2 profile :
  Forall2 SameButColorName garments1 garments2 →
  mapItems (withColorName "") <$> mixAndMatch garments1 profile
  = mapItems (withColorName "") <$> mixAndMatch garments2 profile.
Proof.
  intros Hsame. rewrite <-!mixAndMatch_relabel by done. f_equal.
  induction Hsame as [|x y l1 l2 Hxy _ IH]; [done|].
  rewrite !fmap_cons. f_equal; [by apply withColorName_same|done].
Qed.

(** ** Distinct outfits *)

Lemma mixAndMatch_keys_NoDup garments profile :
  NoDup (comboKey <$> mixAndMatch garments profile).
Proof.
  rewrite mixAndMatch_unfold.
  eapply sublist_NoDup; [|apply fmap_sublist, sublist_take].
  apply firstOccurrences_NoDup.
Qed.

Lemma mixAndMatch_idSets_differ garments profile (i j : nat) o1 o2 :
  NoDup (id <$> garments) → i ≠ j →
  mixAndMatch garments profile !! i = Some o1 →
  mixAndMatch garments profile !! j = Some o2 →
  idSet o1 ≠ idSet o2.
Proof.
  intros Hnd Hij Hi Hj Hset. apply Hij.
  apply (NoDup_lookup _ i j (comboKey o1) (mixAndMatch_keys_NoDup garments profile)).
  - by rewrite list_lookup_fmap, Hi.
  - rewrite list_lookup_fmap, Hj. cbn. f_equal. symmetry.
    apply comboKey_idSet; [| |done].
    + eapply candidates_ids_NoDup; [done|].
      eapply elem_of_mixAndMatch, list_elem_of_lookup_2, Hi.
    + eapply candidates_ids_NoDup; [done|].
      eapply elem_of_mixAndMatch, list_elem_of_lookup_2, Hj.
Qed.

(** ** Two tops and two bottoms *)

Lemma itemAccepted_unconstrained profile x :
  Unconstrained profile → itemAccepted profile x = true.
Proof.
  intros ([Hd|Hd] & [Hf|Hf] & [Hu|Hu]); unfold itemAccepted, isColorFriendly;
    rewrite Hd, Hf, Hu; cbn; by destruct (nameNearestColor (colorHex x)).
Qed.

Lemma partition_lengths (garments : list Garment) :
  (length (List.filter (hasType top) garments)
   + length (List.filter (hasType bottom) garments)
   + length (List.filter (hasType dress) garments)
   + length (List.filter (hasType outerwear) garments)
   + length (List.filter (hasType shoes) garments)
   ≤ length garments)%nat.
Proof.
  induction garments as [|x l IH]; cbn [List.filter length]; [lia|].
  assert (∀ ty, hasType ty x = bool_decide (type x = ty)) as E by done.
  rewrite !E. clear E.
  destruct (type x);
    repeat first [ rewrite bool_decide_eq_true_2 by done
                 | rewrite bool_decide_eq_false_2 by done ];
    cbn [length]; lia.
Qed.

Lemma length_0_nil {A} (l : list A) : length l = 0%nat → l = [].
Proof. by destruct l. Qed.

Lemma candidates_two_tops garments profile t1 t2 b1 b2 :
  List.filter (hasType top) garments = [t1; t2] →
  List.filter (hasType bottom) garments = [b1; b2] →
  length garments = 4%nat →
  Farther 80 b1 t1 → Farther 80 b1 t2 →
  ∃ r1 r2,
    candidates garments profile
    = [ {| items := [t1; b1]; rationale := r1 |};
        {| items := [t2; b1]; rationale := r2 |} ].
Proof.
  intros Htops Hbottoms Hlen H1 H2.
  pose proof (partition_lengths garments) as Hsum.
  rewrite Htops, Hbottoms, Hlen in Hsum. cbn [length] in Hsum.
  rewrite candidates_unfold, Htops, Hbottoms.
  rewrite (length_0_nil (List.filter (hasType dress) garments)) by lia.
  rewrite (length_0_nil (List.filter (hasType outerwear) garments)) by lia.
  rewrite (length_0_nil (List.filter (hasType shoes) garments)) by lia.
  apply contrasts_Farther in H1, H2.
  cbn [take flat_map app]. unfold topStep. cbn [List.find]. rewrite H1, H2.
  cbn [spread app]. by eexists _, _.
Qed.

Lemma mixAndMatch_two_candidates garments profile c1 c2 :
  candidates garments profile = [c1; c2] →
  Unconstrained profile →
  mixAndMatch garments profile
  = if String.eqb (comboKey c2) (comboKey c1) then [c1] else [c1; c2].
Proof.
  intros Hcands Hprofile. rewrite mixAndMatch_unfold, Hcands.
  assert (∀ c, forallb (itemAccepted profile) (items c) = true) as Hall.
  { intros c. apply forallb_forall. intros x _. by apply itemAccepted_unconstrained. }
  cbn [List.filter firstOccurrences]. rewrite !Hall. cbn [List.filter firstOccurrences].
  by destruct (String.eqb (comboKey c2) (comboKey c1)).
Qed.

(** * The claims *)

(** C1. Every item of every outfit returned by [mixAndMatch] satisfies the
    three acceptability conditions: (a) its colour name, the nearest palette
    name of its colour, is not among the disliked colours; (b) if the
    favourite colours are present and non-empty its colour name is among
    them; (c) it suits the undertone: nothing is demanded when the undertone
    is unset or neutral, otherwise the colour name belongs to the cool,
    respectively warm, set.  The filter demands nothing more: it accepts an
    outfit exactly when all its items satisfy the three conditions, so that
    absent or empty favourites impose no constraint. *)
Theorem mixAndMatch_items_acceptable garments profile :
  (∀ o i, o ∈ mixAndMatch garments profile → i ∈ items o → AcceptableItem profile i)
  ∧ (∀ c, forallb (itemAccepted profile) (items c) = true
          ↔ ∀ i, i ∈ items c → AcceptableItem profile i).
Proof.
  assert (∀ c, forallb (itemAccepted profile) (items c) = true
               ↔ ∀ i, i ∈ items c → AcceptableItem profile i) as Hfilter.
  { intros c. rewrite forallb_forall. setoid_rewrite <-list_elem_of_In.
    by setoid_rewrite itemAccepted_iff. }
  split; [|exact Hfilter].
  intros o i [_ Hall]%elem_of_mixAndMatch Hi. by apply (Hfilter o).
Qed.

Lemma mixAndMatch_items_acceptable_witness :
  coolOutfit ∈ mixAndMatch coolWardrobe coolProfile
  ∧ blueTop ∈ items coolOutfit
  ∧ AcceptableItem coolProfile blueTop.
Proof.
  assert (coolOutfit ∈ mixAndMatch coolWardrobe coolProfile) as Ho
    by (vm_compute; constructor).
  assert (blueTop ∈ items coolOutfit) as Hi by (vm_compute; constructor).
  split; [exact Ho|]. split; [exact Hi|].
  exact (proj1 (mixAndMatch_items_acceptable coolWardrobe coolProfile)
           coolOutfit blueTop Ho Hi).
Defined.

(** C2. The list returned by [mixAndMatch] has at most 12 elements. *)
Theorem mixAndMatch_at_most_12 garments profile :
  (length (mixAndMatch garments profile) ≤ 12)%nat.
Proof. rewrite mixAndMatch_unfold, length_take. lia. Qed.

(** C3. The result of [mixAndMatch] is obtained from the accepted
    candidates by keeping the first occurrence of each key, in order, where
    the key of an outfit is the sorted list of its item ids joined by ["-"];
    no key occurs twice in the result; and, the ids of the wardrobe being
    unique, two outfits at distinct positions of the result never have the
    same set of item ids. *)
Theorem mixAndMatch_distinct_item_sets garments profile :
  mixAndMatch garments profile
  = take 12 (firstOccurrences
               (λ c, String.concat "-" (merge_sort string_le (id <$> items c)))
               (List.filter (λ c, forallb (itemAccepted profile) (items c))
                  (candidates garments profile)))
  ∧ NoDup (comboKey <$> mixAndMatch garments profile)
  ∧ (NoDup (id <$> garments) →
     ∀ (i j : nat) o1 o2,
       i ≠ j →
       mixAndMatch garments profile !! i = Some o1 →
       mixAndMatch garments profile !! j = Some o2 →
       idSet o1 ≠ idSet o2).
Proof.
  split; [apply mixAndMatch_unfold|]. split; [apply mixAndMatch_keys_NoDup|].
  intros Hnd i j o1 o2. by apply mixAndMatch_idSets_differ.
Qed.

Lemma mixAndMatch_distinct_item_sets_witness :
  idSet {| items := [blackTop; whiteBottom];
           rationale := ["Top (black) with white bottom for contrast"] |}
  ≠ idSet {| items := [redTop; whiteBottom];
             rationale := ["Top (orange) with white bottom for contrast"] |}.
Proof.
  destruct (mixAndMatch_distinct_item_sets fourGarments unconstrained) as (_ & _ & H).
  apply (H ltac:(apply (bool_decide_unpack _); vm_compute; exact I) 0%nat 1%nat).
  - lia.
  - reflexivity.
  - reflexivity.
Defined.

(** C3, without unique ids.  In [repeatedIds] the two tops have the ids
    ["x"] and ["y"], the bottom has the id ["x"] and the shoes have the id
    ["y"].  [mixAndMatch] returns two outfits, with item ids [x, x, y] and
    [y, x, y]: their keys ["x-x-y"] and ["x-y-y"] differ, so both are kept,
    and their sets of item ids are the same. *)
Lemma mixAndMatch_repeated_ids :
  ∃ o1 o2,
    mixAndMatch repeatedIds unconstrained !! 0%nat = Some o1
    ∧ mixAndMatch repeatedIds unconstrained !! 1%nat = Some o2
    ∧ id <$> items o1 = ["x"; "x"; "y"]
    ∧ id <$> items o2 = ["y"; "x"; "y"]
    ∧ comboKey o1 ≠ comboKey o2
    ∧ idSet o1 = idSet o2.
Proof.
  exists {| items := [ garment "x" top "#000000"; garment "x" bottom "#ffffff";
                       garment "y" shoes "#000000" ];
            rationale := ["Top (black) with white bottom for contrast"] |},
         {| items := [ garment "y" top "#ff0000"; garment "x" bottom "#ffffff";
                       garment "y" shoes "#000000" ];
            rationale := ["Top (orange) with white bottom for contrast"] |}.
  split; [reflexivity|]. split; [reflexivity|].
  split; [reflexivity|]. split; [reflexivity|].
  split; [vm_compute; discriminate|].
  apply set_eq. intros i. unfold idSet. rewrite !elem_of_list_to_set.
  cbn. rewrite !elem_of_cons, !elem_of_nil. tauto.
Qed.

(** C4. For every input string, [nameNearestColor] returns the name of a
    palette entry whose Euclidean distance to the input colour is minimal
    over the whole palette (distances are compared by their squares), and
    every entry listed before it is strictly farther: ties go to the entry
    listed first.  The result is always a defined value, one of the palette
    names. *)
Theorem nameNearestColor_first_nearest (hex : string) :
  ∃ (i : nat) (key name_ : string),
    NAMED_COLORS !! i = Some (key, name_)
    ∧ nameNearestColor hex = Some name_
    ∧ name_ ∈ paletteNames
    ∧ (∀ (j : nat) key' name', NAMED_COLORS !! j = Some (key', name') →
         squaredDistance (hexToRgb hex) (hexToRgb key)
         ≤ squaredDistance (hexToRgb hex) (hexToRgb key'))
    ∧ (∀ (j : nat) key' name', (j < i)%nat → NAMED_COLORS !! j = Some (key', name') →
         squaredDistance (hexToRgb hex) (hexToRgb key)
         < squaredDistance (hexToRgb hex) (hexToRgb key')).
Proof.
  destruct (nearestKey_first hex NAMED_KEYS)
    as [[? _]|(i & key & Hi & Hst & Hmin & Hfirst)]; [done|done|].
  unfold NAMED_KEYS in Hi. rewrite list_lookup_fmap in Hi.
  destruct (NAMED_COLORS !! i) as [[key0 name0]|] eqn:Hentry; [|done].
  cbn in Hi. injection Hi as ->.
  exists i, key, name0. split; [done|]. split; [|split; [|split]].
  - unfold nameNearestColor. rewrite Hst. cbn [fst].
    eapply getProperty_lookup; [apply NAMED_KEYS_NoDup|done].
  - apply list_elem_of_lookup. exists i. unfold paletteNames.
    by rewrite list_lookup_fmap, Hentry.
  - intros j key' name' Hj. apply (Hmin j). unfold NAMED_KEYS.
    by rewrite list_lookup_fmap, Hj.
  - intros j key' name' Hlt Hj. apply (Hfirst j); [done|]. unfold NAMED_KEYS.
    by rewrite list_lookup_fmap, Hj.
Qed.

(** C5. Strategy B handles the first 8 tops of the wardrobe, in wardrobe
    order, and each of them contributes at most one candidate: none when no
    bottom is farther than 80 from the top; otherwise the outfit made of the
    top, the first bottom (in wardrobe order) farther than 80 from the top,
    the first outerwear farther than 90 from the top, if any, and the first
    shoes farther than 60 from that bottom, if any. *)
Theorem strategyB_first_match garments profile :
  let tops := List.filter (hasType top) garments in
  let bottoms := List.filter (hasType bottom) garments in
  let dresses := List.filter (hasType dress) garments in
  let outers := List.filter (hasType outerwear) garments in
  let shoes := List.filter (hasType shoes) garments in
  let rules := buildRules profile in
  ∃ perTop : Garment → list Combo,
    (∀ combos t, topStep bottoms outers shoes rules combos t = combos ++ perTop t)
    ∧ candidates garments profile
      = fold_left (dressStep outers shoes) (take 6 dresses) []
        ++ flat_map perTop (take 8 tops)
    ∧ ∀ t,
        (length (perTop t) ≤ 1)%nat
        ∧ ((Forall (λ x, ¬ Farther 80 x t) bottoms ∧ perTop t = [])
           ∨ ∃ c bottom_ layer shoe,
               perTop t = [c]
               ∧ items c = [t; bottom_] ++ spread layer ++ spread shoe
               ∧ FirstMatch (λ x, Farther 80 x t) bottoms (Some bottom_)
               ∧ FirstMatch (λ o, Farther 90 o t) outers layer
               ∧ FirstMatch (λ s, Farther 60 s bottom_) shoes shoe).
Proof.
  intros tops bottoms dresses outers shoes rules.
  exists (topStep bottoms outers shoes rules []). split; [|split].
  - intros combos t. apply topStep_push.
  - unfold candidates. fold tops bottoms dresses outers shoes rules.
    apply fold_left_push. intros. apply topStep_push.
  - intros t. pose proof (topStep_cases bottoms outers shoes rules t) as H.
    split; [|exact H].
    destruct H as [[_ ->]|(c & ? & ? & ? & -> & _)]; cbn; lia.
Qed.

(** C6. Strategy A handles the first 6 dresses of the wardrobe, in wardrobe
    order, and a dress from which no shoes are farther than 60 contributes
    no outfit; in particular a wardrobe with one dress, no shoes and no top
    yields the empty list. *)
Theorem strategyA_needs_shoes garments profile :
  let tops := List.filter (hasType top) garments in
  let dresses := List.filter (hasType dress) garments in
  let outers := List.filter (hasType outerwear) garments in
  let shoes := List.filter (hasType shoes) garments in
  (∃ perDress : Garment → list Combo,
     (∀ combos d, dressStep outers shoes combos d = combos ++ perDress d)
     ∧ fold_left (dressStep outers shoes) (take 6 dresses) []
       = flat_map perDress (take 6 dresses)
     ∧ ∀ d, Forall (λ s, ¬ Farther 60 s d) shoes → perDress d = [])
  ∧ (length dresses = 1%nat → shoes = [] → tops = [] →
     mixAndMatch garments profile = []).
Proof.
  intros tops dresses outers shoes. split.
  - exists (dressStep outers shoes []). split; [|split].
    + intros. apply dressStep_push.
    + apply (fold_left_push (dressStep outers shoes)). intros. apply dressStep_push.
    + intros d Hd. by apply dressStep_no_shoe.
  - intros _ Hshoes Htops. apply mixAndMatch_no_candidates, candidates_nil.
    + intros d s _ _ Hs Hty.
      assert (s ∈ shoes) as Hin by by apply elem_of_partition.
      rewrite Hshoes in Hin. by apply elem_of_nil in Hin.
    + intros t x Ht Hty _ _.
      assert (t ∈ tops) as Hin by by apply elem_of_partition.
      rewrite Htops in Hin. by apply elem_of_nil in Hin.
Qed.

Lemma strategyA_needs_shoes_witness :
  mixAndMatch [garment "d1" dress "#c0392b"; garment "o1" outerwear "#ffffff"]
    unconstrained = [].
Proof.
  apply (strategyA_needs_shoes
           [garment "d1" dress "#c0392b"; garment "o1" outerwear "#ffffff"]
           unconstrained); reflexivity.
Defined.

(** C7. Take a wardrobe of exactly two tops and two bottoms whose colours
    are pairwise farther apart than 80, whose candidate outfits have pairwise
    different id sets, and a profile that constrains nothing.  Then
    [mixAndMatch] returns at most 4 outfits (indeed at most one per top, each
    top with the first bottom), within the cap of 12, with pairwise
    different id sets and pairwise different keys.  The result is not empty:
    its first outfit is the first top with the first bottom; and when the
    keys of the two candidates differ, the result is exactly the two outfits
    [t1, b1] and [t2, b1]. *)
Theorem two_tops_two_bottoms garments profile t1 t2 b1 b2 :
  List.filter (hasType top) garments = [t1; t2] →
  List.filter (hasType bottom) garments = [b1; b2] →
  length garments = 4%nat →
  (∀ x y, x ∈ garments → y ∈ garments → x ≠ y → Farther 80 x y) →
  NoDup (idSet <$> candidates garments profile) →
  Unconstrained profile →
  (length (mixAndMatch garments profile) ≤ 4)%nat
  ∧ (length (mixAndMatch garments profile) ≤ 12)%nat
  ∧ NoDup (idSet <$> mixAndMatch garments profile)
  ∧ NoDup (comboKey <$> mixAndMatch garments profile)
  ∧ (length (mixAndMatch garments profile) ≤ 2)%nat
  ∧ (∀ o, o ∈ mixAndMatch garments profile → items o = [t1; b1] ∨ items o = [t2; b1])
  ∧ (∃ first rest,
       mixAndMatch garments profile = first :: rest ∧ items first = [t1; b1])
  ∧ (String.concat "-" (merge_sort string_le [id t1; id b1])
     ≠ String.concat "-" (merge_sort string_le [id t2; id b1]) →
     ∃ first second,
       mixAndMatch garments profile = [first; second]
       ∧ items first = [t1; b1] ∧ items second = [t2; b1]).
Proof.
  intros Htops Hbottoms Hlen Hfar Hsets Hprofile.
  assert (t1 ∈ garments ∧ type t1 = top) as [Ht1 Hty1]
    by (apply elem_of_partition; rewrite Htops; by left).
  assert (t2 ∈ garments ∧ type t2 = top) as [Ht2 Hty2]
    by (apply elem_of_partition; rewrite Htops; right; by left).
  assert (b1 ∈ garments ∧ type b1 = bottom) as [Hb1 Htyb]
    by (apply elem_of_partition; rewrite Hbottoms; by left).
  destruct (candidates_two_tops garments profile t1 t2 b1 b2)
    as (r1 & r2 & Hcands); [done|done|done| | |].
  { apply Hfar; [done|done|]. intros ->. congruence. }
  { apply Hfar; [done|done|]. intros ->. congruence. }
  pose proof (mixAndMatch_sublist garments profile) as Hsub.
  assert (mixAndMatch garments profile `sublist_of` candidates garments profile)
    as Hsub' by (etrans; [exact Hsub|apply filter_bool_sublist]).
  pose proof (sublist_length _ _ Hsub') as Hle. rewrite Hcands in Hle. cbn in Hle.
  pose proof (mixAndMatch_two_candidates garments profile _ _ Hcands Hprofile) as Hres.
  split; [lia|]. split; [lia|].
  split; [by eapply sublist_NoDup; [exact Hsets|apply fmap_sublist]|].
  split; [apply mixAndMatch_keys_NoDup|]. split; [lia|]. split; [|split].
  - intros o Ho. eapply sublist_subseteq in Ho; [|exact Hsub'].
    rewrite Hcands in Ho.
    apply elem_of_cons in Ho as [->|Ho]; [by left|].
    apply list_elem_of_singleton in Ho as ->. by right.
  - rewrite Hres. destruct (String.eqb _ _); by eexists _, _.
  - intros Hkeys. rewrite Hres.
    destruct (String.eqb _ _) eqn:Heq; [|by eexists _, _].
    apply String.eqb_eq in Heq. destruct Hkeys. symmetry. exact Heq.
Qed.

Lemma two_tops_two_bottoms_witness :
  (length (mixAndMatch fourGarments unconstrained) ≤ 4)%nat
  ∧ (∀ o, o ∈ mixAndMatch fourGarments unconstrained →
       items o = [blackTop; whiteBottom] ∨ items o = [redTop; whiteBottom])
  ∧ ∃ first second,
      mixAndMatch fourGarments unconstrained = [first; second]
      ∧ items first = [blackTop; whiteBottom] ∧ items second = [redTop; whiteBottom].
Proof.
  destruct (two_tops_two_bottoms fourGarments unconstrained
              blackTop redTop whiteBottom blueBottom)
    as (H4 & _ & _ & _ & _ & Hitems & _ & Htwo).
  - reflexivity.
  - reflexivity.
  - reflexivity.
  - intros x y Hx Hy Hne. unfold fourGarments in Hx, Hy.
    list_cases; try done; vm_compute; reflexivity.
  - apply (bool_decide_unpack _). vm_compute. exact I.
  - unfold Unconstrained. cbn. auto.
  - split; [exact H4|]. split; [exact Hitems|]. apply Htwo. vm_compute. discriminate.
Defined.

(** C8. [mixAndMatch] is a total function with no error outcome.  On the
    empty wardrobe, and on every wardrobe where no shoes are farther than 60
    from any dress and no bottom is farther than 80 from any top, it returns
    the empty list. *)
Theorem mixAndMatch_no_pairing garments profile :
  mixAndMatch [] profile = []
  ∧ ((∀ d s, d ∈ garments → type d = dress → s ∈ garments → type s = shoes →
        ¬ Farther 60 s d) →
     (∀ t x, t ∈ garments → type t = top → x ∈ garments → type x = bottom →
        ¬ Farther 80 x t) →
     mixAndMatch garments profile = []).
Proof.
  split; [done|]. intros Hdress Htop.
  by apply mixAndMatch_no_candidates, candidates_nil.
Qed.

Lemma mixAndMatch_no_pairing_witness :
  mixAndMatch tonalGarments unconstrained = [].
Proof.
  apply (mixAndMatch_no_pairing tonalGarments unconstrained).
  - intros d s Hd Hdt Hs Hst. unfold tonalGarments in Hd, Hs.
    list_cases; try done; vm_compute; intros H; discriminate H.
  - intros t x Ht Htt Hx Hxt. unfold tonalGarments in Ht, Hx.
    list_cases; try done; vm_compute; intros H; discriminate H.
Defined.

(** C9. The stored [colorName] of a garment has no influence on the
    result: colour names are always recomputed from [colorHex] by
    [nameNearestColor].  For two wardrobes that differ at most in the
    [colorName] fields of their garments, [mixAndMatch] returns lists of the
    same length whose outfits have, position by position, the same item ids
    in the same order and the same rationale strings; and whether an item
    passes the filter depends on the item only through
    [nameNearestColor] of its [colorHex]. *)
Theorem mixAndMatch_ignores_colorName garments1 garments2 profile :
  Forall2 SameButColorName garments1 garments2 →
  Forall2 (λ o1 o2, id <$> items o1 = id <$> items o2 ∧ rationale o1 = rationale o2)
    (mixAndMatch garments1 profile) (mixAndMatch garments2 profile)
  ∧ (∀ x y, nameNearestColor (colorHex x) = nameNearestColor (colorHex y) →
       itemAccepted profile x = itemAccepted profile y).
Proof.
  intros Hsame%(mixAndMatch_colorName _ _ profile)%fmap_eq_Forall2. split.
  - eapply Forall2_impl; [exact Hsame|]. intros o1 o2 [= Hitems Hrat]. split; [|done].
    apply (f_equal (fmap id)) in Hitems. rewrite <-!list_fmap_compose in Hitems. done.
  - intros x y Hname. unfold itemAccepted, isColorFriendly. by rewrite Hname.
Qed.

Lemma mixAndMatch_ignores_colorName_witness :
  Forall2 (λ o1 o2, id <$> items o1 = id <$> items o2 ∧ rationale o1 = rationale o2)
    (mixAndMatch fourGarments unconstrained)
    (mixAndMatch (withColorName "navy" <$> fourGarments) unconstrained).
Proof.
  apply (mixAndMatch_ignores_colorName fourGarments
           (withColorName "navy" <$> fourGarments) unconstrained).
  repeat constructor.
Defined.

(** C9, the colour value.  The pairing compares [colorHex] values with
    [colorDistance], not colour names: the bottoms ["#303030"] and
    ["#2a2a2a"] are both named charcoal, yet a black top is paired with the
    first (distance about 83) and not with the second (distance about 73),
    so the selection differs between two wardrobes with the same colour
    names. *)
Lemma mixAndMatch_reads_colorHex :
  nameNearestColor "#303030" = Some "charcoal"
  ∧ nameNearestColor "#2a2a2a" = Some "charcoal"
  ∧ mixAndMatch (charcoalPair "#303030") unconstrained
    = [ {| items := charcoalPair "#303030";
           rationale := ["Top (black) with charcoal bottom for contrast"] |} ]
  ∧ mixAndMatch (charcoalPair "#2a2a2a") unconstrained = [].
Proof. repeat split; vm_compute; reflexivity. Qed.

(** C10. Every outfit returned by [mixAndMatch] has between 2 and 4 items,
    all of them garments of the wardrobe and none an accessory; its first
    item is a dress or a top; and its items are either a dress, an optional
    outerwear and shoes, or a top, a bottom, an optional outerwear and
    optional shoes, in this order. *)
Theorem mixAndMatch_outfit_shape garments profile o :
  o ∈ mixAndMatch garments profile →
  (2 ≤ length (items o) ≤ 4)%nat
  ∧ (∀ i, i ∈ items o → i ∈ garments ∧ type i ≠ accessory)
  ∧ (∃ first, head (items o) = Some first ∧ (type first = dress ∨ type first = top))
  ∧ ((∃ d layer shoe,
        items o = [d] ++ spread layer ++ [shoe]
        ∧ type d = dress
        ∧ (∀ x, layer = Some x → type x = outerwear)
        ∧ type shoe = shoes)
     ∨ (∃ t bottom_ layer shoe,
          items o = [t; bottom_] ++ spread layer ++ spread shoe
          ∧ type t = top
          ∧ type bottom_ = bottom
          ∧ (∀ x, layer = Some x → type x = outerwear)
          ∧ (∀ x, shoe = Some x → type x = shoes))).
Proof.
  intros [Hc _]%elem_of_mixAndMatch.
  destruct (candidates_shape _ _ _ Hc) as [Hshape|Hshape].
  - destruct (DressOutfit_items _ _ Hshape) as (Hlen & Hin & first & Hhd & Hty).
    split; [lia|]. split; [done|]. split; [exists first; auto|]. left.
    destruct Hshape as (d & layer & shoe & Hitems & [_ ?] & Hlayer & [_ ?]).
    exists d, layer, shoe. repeat split; try done. intros x Hx. by apply Hlayer.
  - destruct (TopOutfit_items _ _ Hshape) as (Hlen & Hin & first & Hhd & Hty).
    split; [lia|]. split; [done|]. split; [exists first; auto|]. right.
    destruct Hshape as (t & b0 & layer & shoe & Hitems & [_ ?] & [_ ?] & Hlayer & Hshoe).
    exists t, b0, layer, shoe. repeat split; try done.
    + intros x Hx. by apply Hlayer.
    + intros x Hx. by apply Hshoe.
Qed.

Lemma mixAndMatch_outfit_shape_witness :
  coolOutfit ∈ mixAndMatch coolWardrobe coolProfile
  ∧ (2 ≤ length (items coolOutfit) ≤ 4)%nat
  ∧ (∀ i, i ∈ items coolOutfit → i ∈ coolWardrobe ∧ type i ≠ accessory).
Proof.
  assert (coolOutfit ∈ mixAndMatch coolWardrobe coolProfile) as Ho
    by (vm_compute; constructor).
  split; [exact Ho|].
  destruct (mixAndMatch_outfit_shape coolWardrobe coolProfile coolOutfit Ho)
    as (Hlen & Hin & _).
  split; [exact Hlen|exact Hin].
Defined.

(** * Further properties *)

(** ** Colours to strings and back *)

Lemma forall_below (P : Z → bool) (n : Z) :
  forallb P (seqZ 0 n) = true → ∀ v, 0 ≤ v < n → P v = true.
Proof.
  intros Hall v Hv. rewrite forallb_forall in Hall.
  apply Hall, list_elem_of_In, elem_of_seqZ. lia.
Qed.

Lemma hexDigit_hexChar d : 0 ≤ d < 16 → Js.hexDigit (JsString.hexChar d) = Some d.
Proof.
  intros Hd.
  apply (forall_below
           (λ d, bool_decide (Js.hexDigit (JsString.hexChar d) = Some d)) 16) in Hd;
    [by apply bool_decide_eq_true in Hd|reflexivity].
Qed.

(** A byte prints as two digits. *)
Lemma byte_toString16 v :
  0 ≤ v ≤ 255 →
  JsString.padStart0 2 (JsString.toString16 v)
  = String (JsString.hexChar (v / 16)) (String (JsString.hexChar (v mod 16)) "").
Proof.
  intros Hv.
  assert (0 ≤ v < 256) as Hv' by lia.
  apply (forall_below
           (λ v, String.eqb (JsString.padStart0 2 (JsString.toString16 v))
                   (String (JsString.hexChar (v / 16))
                      (String (JsString.hexChar (v mod 16)) ""))) 256) in Hv';
    [by apply String.eqb_eq in Hv'|vm_compute; reflexivity].
Qed.

(** [parseInt(_, 16)] on a string that starts with two hex digits reads
    its digits: no white space, sign or [0x] is skipped. *)
Lemma parseInt16_two_digits c1 c2 rest :
  is_Some (Js.hexDigit c1) → is_Some (Js.hexDigit c2) →
  Js.parseInt16 (String c1 (String c2 rest))
  = match Js.hexPrefix (String c1 (String c2 rest)) 0%nat 0 with
    | (O, _) => Js.NaN
    | (_, m) => Js.roundToDouble false m
    end.
Proof.
  intros [d1 H1] [d2 H2].
  destruct c1 as [[] [] [] [] [] [] [] []]; try discriminate H1; try reflexivity;
    destruct c2 as [[] [] [] [] [] [] [] []]; try discriminate H2; reflexivity.
Qed.

Lemma hexPrefix_hexChar d s n acc :
  0 ≤ d < 16 →
  Js.hexPrefix (String (JsString.hexChar d) s) n acc = Js.hexPrefix s (S n) (16 * acc + d).
Proof. intros Hd. cbn [Js.hexPrefix]. by rewrite hexDigit_hexChar. Qed.

(** Six digits are read as the three bytes they spell. *)
Lemma hexToRgb_six_digits d1 d2 d3 d4 d5 d6 :
  0 ≤ d1 < 16 → 0 ≤ d2 < 16 → 0 ≤ d3 < 16 → 0 ≤ d4 < 16 → 0 ≤ d5 < 16 → 0 ≤ d6 < 16 →
  hexToRgb (String "#" (String (JsString.hexChar d1) (String (JsString.hexChar d2)
             (String (JsString.hexChar d3) (String (JsString.hexChar d4)
             (String (JsString.hexChar d5) (String (JsString.hexChar d6) "")))))))
  = {| r := 16 * d1 + d2; g := 16 * d3 + d4; b := 16 * d5 + d6 |}.
Proof.
  intros H1 H2 H3 H4 H5 H6. unfold hexToRgb.
  cbn [Js.removeFirst Ascii.eqb Bool.eqb String.length Nat.eqb].
  rewrite parseInt16_two_digits by (rewrite hexDigit_hexChar by done; eauto).
  rewrite !hexPrefix_hexChar by done. cbn [Js.hexPrefix].
  set (m := 16 * (16 * (16 * (16 * (16 * (16 * 0 + d1) + d2) + d3) + d4) + d5) + d6).
  assert (m = (16 * d1 + d2) * 65536 + (16 * d3 + d4) * 256 + (16 * d5 + d6)) as Hm
    by (unfold m; lia).
  assert (0 ≤ m < 2 ^ 24) as Hrange by lia.
  unfold Js.roundToDouble.
  destruct (Z.ltb_spec m (2 ^ 53)) as [_|?]; [|lia].
  unfold Js.toInt32. rewrite Z.mul_1_l, (Z.mod_small m (2 ^ 32)) by lia.
  destruct (Z.leb_spec (2 ^ 31) m) as [?|_]; [lia|].
  change 255 with (Z.ones 8). rewrite !Z.land_ones, !Z.shiftr_div_pow2 by lia.
  change (2 ^ 16) with 65536. change (2 ^ 8) with 256.
  f_equal; rewrite Hm; clear Hm Hrange m; Z.div_mod_to_equations; lia.
Qed.

Lemma rgbToHex_bytes (r_ g_ b_ : Z) :
  0 ≤ r_ ≤ 255 → 0 ≤ g_ ≤ 255 → 0 ≤ b_ ≤ 255 →
  rgbToHex r_ g_ b_
  = String "#"
      (String (JsString.hexChar (r_ / 16)) (String (JsString.hexChar (r_ mod 16))
      (String (JsString.hexChar (g_ / 16)) (String (JsString.hexChar (g_ mod 16))
      (String (JsString.hexChar (b_ / 16)) (String (JsString.hexChar (b_ mod 16)) "")))))).
Proof.
  intros Hr Hg Hb. unfold rgbToHex. cbn [fmap list_fmap String.concat].
  by rewrite !byte_toString16.
Qed.

Lemma rgbToHex_read (r_ g_ b_ : Z) :
  0 ≤ r_ ≤ 255 → 0 ≤ g_ ≤ 255 → 0 ≤ b_ ≤ 255 →
  hexToRgb (rgbToHex r_ g_ b_) = {| r := r_; g := g_; b := b_ |}.
Proof.
  intros Hr Hg Hb. rewrite rgbToHex_bytes by done.
  rewrite hexToRgb_six_digits by (Z.div_mod_to_equations; lia).
  f_equal; Z.div_mod_to_equations; lia.
Qed.

(** X1. Round trip: for bytes [r], [g], [b], [rgbToHex] gives ["#"] and six
    digits, and [hexToRgb] reads the three bytes back. *)
Theorem hexToRgb_rgbToHex (r_ g_ b_ : Z) :
  0 ≤ r_ ≤ 255 → 0 ≤ g_ ≤ 255 → 0 ≤ b_ ≤ 255 →
  hexToRgb (rgbToHex r_ g_ b_) = {| r := r_; g := g_; b := b_ |}
  ∧ String.length (rgbToHex r_ g_ b_) = 7%nat.
Proof.
  intros Hr Hg Hb. split; [by apply rgbToHex_read|].
  by rewrite rgbToHex_bytes.
Qed.

Lemma hexToRgb_rgbToHex_witness :
  hexToRgb (rgbToHex 192 57 43) = {| r := 192; g := 57; b := 43 |}.
Proof. apply (hexToRgb_rgbToHex 192 57 43); lia. Defined.

Lemma removeFirst_absent p s :
  (∀ c, In c (list_ascii_of_string s) → c ≠ p) → Js.removeFirst p s = s.
Proof.
  induction s as [|c s IH]; intros H; cbn; [done|].
  destruct (Ascii.eqb_spec c p) as [->|_].
  - exfalso. by apply (H p); [left|].
  - f_equal. apply IH. intros c' Hc'. apply H. by right.
Qed.

(** X2. Whatever the string, [hexToRgb] returns three bytes; and a leading
    ["#"] is optional: a string without ["#"] is read like the same string
    after ["#"]. *)
Theorem hexToRgb_bytes (hex : string) :
  (0 ≤ r (hexToRgb hex) ≤ 255
   ∧ 0 ≤ g (hexToRgb hex) ≤ 255
   ∧ 0 ≤ b (hexToRgb hex) ≤ 255)
  ∧ ((∀ c, In c (list_ascii_of_string hex) → c ≠ "#"%char) →
     hexToRgb (String "#" hex) = hexToRgb hex).
Proof.
  split; [apply hexToRgb_range|].
  intros Hno. unfold hexToRgb.
  cbn [Js.removeFirst Ascii.eqb Bool.eqb]. by rewrite removeFirst_absent.
Qed.

Lemma hexToRgb_bytes_witness : hexToRgb "#C0392B" = hexToRgb "C0392B".
Proof.
  apply (hexToRgb_bytes "C0392B").
  intros c Hc. cbn in Hc. intuition (subst; discriminate).
Defined.

Lemma squaredDistance_sym x y : squaredDistance x y = squaredDistance y x.
Proof. unfold squaredDistance. lia. Qed.

(** X3. [colorDistance] is symmetric, is zero between a colour and itself,
    so that a colour never contrasts with itself, and is at most the square
    root of [3 * 255^2], about 441.67: no threshold from 442 on is ever
    exceeded.  The bound is reached between black and white, which exceeds
    441. *)
Theorem colorDistance_symmetric_bounded (hex1 hex2 : string) :
  colorDistance hex1 hex2 = colorDistance hex2 hex1
  ∧ colorDistance hex1 hex1 = Root 0
  ∧ (∀ t, 0 ≤ t → exceeds (colorDistance hex1 hex1) t = false)
  ∧ (∀ t, 442 ≤ t → exceeds (colorDistance hex1 hex2) t = false)
  ∧ (∃ n, colorDistance hex1 hex2 = Root n ∧ 0 ≤ n ≤ 3 * 255 ^ 2)
  ∧ colorDistance "#000000" "#ffffff" = Root (3 * 255 ^ 2)
  ∧ exceeds (colorDistance "#000000" "#ffffff") 441 = true.
Proof.
  unfold colorDistance, exceeds, ofInteger. cbn [Distance_ltb].
  split; [by rewrite squaredDistance_sym|].
  split; [f_equal; unfold squaredDistance; lia|]. split; [|split; [|split]].
  - intros t Ht. apply Z.ltb_ge. unfold squaredDistance. nia.
  - intros t Ht. apply Z.ltb_ge.
    pose proof (squaredDistance_range hex1 hex2). nia.
  - eexists. split; [reflexivity|].
    pose proof (squaredDistance_range hex1 hex2). lia.
  - split; reflexivity.
Qed.

Lemma colorDistance_symmetric_bounded_witness :
  exceeds (colorDistance "#000000" "#ffffff") 442 = false.
Proof.
  apply (colorDistance_symmetric_bounded "#000000" "#ffffff"). lia.
Defined.

(** X4. Every colour of the palette is named by its own entry. *)
Theorem palette_names_itself (key name_ : string) :
  (key, name_) ∈ NAMED_COLORS → nameNearestColor key = Some name_.
Proof.
  revert key name_.
  assert (Forall (λ e, nameNearestColor e.1 = Some e.2) NAMED_COLORS) as H
    by (repeat constructor).
  rewrite Forall_forall in H. intros key name_ Hin. apply (H (key, name_) Hin).
Qed.

Lemma palette_names_itself_witness : nameNearestColor "#16A085" = Some "teal".
Proof.
  apply (palette_names_itself "#16A085" "teal").
  apply (bool_decide_unpack _). vm_compute. exact I.
Defined.

(** ** The dominant colour *)

Lemma sampleStep_fold data l r0 g0 b0 n0 :
  fold_left (sampleStep data) l (r0, g0, b0, n0)
  = (r0 + foldr (λ i acc, data i + acc) 0 l,
     g0 + foldr (λ i acc, data (i + 1)%nat + acc) 0 l,
     b0 + foldr (λ i acc, data (i + 2)%nat + acc) 0 l,
     n0 + Z.of_nat (length l)).
Proof.
  revert r0 g0 b0 n0. induction l as [|i l IH]; intros r0 g0 b0 n0; cbn [fold_left].
  - cbn. by rewrite !Z.add_0_r.
  - unfold sampleStep at 2. rewrite IH. cbn [foldr length].
    f_equal; [f_equal; [f_equal|]|]; lia.
Qed.

Lemma sampleOffsets_length : length sampleOffsets = 256%nat.
Proof. reflexivity. Qed.

Lemma extractDominantColor_unfold data :
  extractDominantColor data
  = rgbToHex (roundedMean (channelSum data 0) 256)
      (roundedMean (channelSum data 1) 256)
      (roundedMean (channelSum data 2) 256).
Proof.
  unfold extractDominantColor. rewrite sampleStep_fold, sampleOffsets_length.
  change (0 + Z.of_nat 256) with 256. cbv beta iota zeta. rewrite !Z.add_0_l.
  assert (foldr (λ i acc, data i + acc) 0 sampleOffsets = channelSum data 0) as ->.
  { unfold channelSum. generalize sampleOffsets. intros l.
    induction l as [|i l IH]; [done|]. cbn [foldr]. by rewrite IH, Nat.add_0_r. }
  done.
Qed.

(** Every sampled offset leaves room for its four bytes in the array. *)
Lemma sampleOffsets_bound i : i ∈ sampleOffsets → (i + 3 < 80 * 80 * 4)%nat.
Proof.
  unfold sampleOffsets.
  intros (y & (x & ->%list_elem_of_singleton & Hx%elem_of_seq)%list_elem_of_bind
            & Hy%elem_of_seq)%list_elem_of_bind.
  lia.
Qed.

Lemma foldr_sum_bounds (f : nat → Z) (l : list nat) lo hi :
  (∀ i, i ∈ l → lo ≤ f i ≤ hi) →
  lo * Z.of_nat (length l) ≤ foldr (λ i acc, f i + acc) 0 l ≤ hi * Z.of_nat (length l).
Proof.
  induction l as [|i l IH]; intros H; cbn [foldr length]; [lia|].
  pose proof (H i ltac:(left)). 
  assert (∀ j, j ∈ l → lo ≤ f j ≤ hi) as H' by (intros j Hj; apply H; by right).
  specialize (IH H'). lia.
Qed.

Lemma channelSum_bounds data k lo hi :
  (k ≤ 3)%nat →
  (∀ i, (i < 80 * 80 * 4)%nat → lo ≤ data i ≤ hi) →
  lo * 256 ≤ channelSum data k ≤ hi * 256.
Proof.
  intros Hk Hdata. unfold channelSum.
  pose proof (foldr_sum_bounds (λ i, data (i + k)%nat) sampleOffsets lo hi) as H.
  rewrite sampleOffsets_length in H. apply H.
  intros i Hi%sampleOffsets_bound. apply Hdata. lia.
Qed.

(** X5. On an array of bytes [extractDominantColor] returns a colour that
    [hexToRgb] reads back as three bytes, each the rounded mean of the 256
    sampled values of its channel. *)
Theorem extractDominantColor_mean (data : nat → Z) :
  (∀ i, (i < 80 * 80 * 4)%nat → 0 ≤ data i ≤ 255) →
  hexToRgb (extractDominantColor data)
  = {| r := roundedMean (channelSum data 0) 256;
       g := roundedMean (channelSum data 1) 256;
       b := roundedMean (channelSum data 2) 256 |}
  ∧ 0 ≤ roundedMean (channelSum data 0) 256 ≤ 255
  ∧ 0 ≤ roundedMean (channelSum data 1) 256 ≤ 255
  ∧ 0 ≤ roundedMean (channelSum data 2) 256 ≤ 255.
Proof.
  intros Hdata.
  assert (∀ k, (k ≤ 3)%nat → 0 ≤ roundedMean (channelSum data k) 256 ≤ 255) as Hmean.
  { intros k Hk. pose proof (channelSum_bounds data k 0 255 Hk Hdata).
    unfold roundedMean. Z.div_mod_to_equations. lia. }
  rewrite extractDominantColor_unfold.
  split; [apply rgbToHex_read; apply Hmean; lia|].
  repeat split; apply Hmean; lia.
Qed.

Lemma extractDominantColor_mean_witness :
  hexToRgb (extractDominantColor (λ _, 128))
  = {| r := roundedMean (channelSum (λ _, 128) 0) 256;
       g := roundedMean (channelSum (λ _, 128) 1) 256;
       b := roundedMean (channelSum (λ _, 128) 2) 256 |}.
Proof. apply (extractDominantColor_mean (λ _, 128)). intros i _. lia. Defined.

Lemma foldr_sum_constant (f : nat → Z) (l : list nat) v :
  (∀ i, i ∈ l → f i = v) →
  foldr (λ i acc, f i + acc) 0 l = v * Z.of_nat (length l).
Proof.
  induction l as [|i l IH]; intros H; cbn [foldr length]; [lia|].
  rewrite (H i) by left. rewrite IH by (intros j Hj; apply H; by right). lia.
Qed.

(** X6. An image whose sampled pixels all have the colour [(r, g, b)] has
    this colour as its dominant colour. *)
Theorem extractDominantColor_uniform (data : nat → Z) (r_ g_ b_ : Z) :
  (∀ i, i ∈ sampleOffsets →
     data i = r_ ∧ data (i + 1)%nat = g_ ∧ data (i + 2)%nat = b_) →
  extractDominantColor data = rgbToHex r_ g_ b_.
Proof.
  intros Hdata. rewrite extractDominantColor_unfold. unfold channelSum.
  rewrite (foldr_sum_constant (λ i, data (i + 0)%nat) sampleOffsets r_)
    by (intros i Hi; rewrite Nat.add_0_r; by apply Hdata).
  rewrite (foldr_sum_constant (λ i, data (i + 1)%nat) sampleOffsets g_)
    by (intros i Hi; by apply Hdata).
  rewrite (foldr_sum_constant (λ i, data (i + 2)%nat) sampleOffsets b_)
    by (intros i Hi; by apply Hdata).
  rewrite sampleOffsets_length. unfold roundedMean.
  f_equal; Z.div_mod_to_equations; lia.
Qed.

Lemma extractDominantColor_uniform_witness :
  extractDominantColor (λ i, Z.of_nat (i mod 4) * 60) = rgbToHex 0 60 120.
Proof.
  apply (extractDominantColor_uniform (λ i, Z.of_nat (i mod 4) * 60) 0 60 120).
  unfold sampleOffsets.
  intros i (y & (x & ->%list_elem_of_singleton & _)%list_elem_of_bind
              & _)%list_elem_of_bind.
  replace (((5 * y * 80 + 5 * x) * 4) `mod` 4)%nat with 0%nat
    by (symmetry; apply Nat.Div0.mod_mul).
  replace (((5 * y * 80 + 5 * x) * 4 + 1) `mod` 4)%nat with 1%nat
    by (rewrite Nat.add_comm, Nat.Div0.mod_add; reflexivity).
  replace (((5 * y * 80 + 5 * x) * 4 + 2) `mod` 4)%nat with 2%nat
    by (rewrite Nat.add_comm, Nat.Div0.mod_add; reflexivity).
  cbn. done.
Defined.

(** ** Strings *)

Lemma string_app_assoc (a b c : string) : (a +:+ b) +:+ c = a +:+ (b +:+ c).
Proof.
  induction a as [|x a IH]; [done|].
  change (String x ((a +:+ b) +:+ c) = String x (a +:+ b +:+ c)). by rewrite IH.
Qed.

Lemma string_app_nil_r (a : string) : a +:+ "" = a.
Proof.
  induction a as [|x a IH]; [done|].
  change (String x (a +:+ "") = String x a). by rewrite IH.
Qed.

Lemma prefix_spec (k s : string) :
  String.prefix k s = true ↔ ∃ q, s = k +:+ q.
Proof.
  revert s. induction k as [|c k IH]; intros s.
  - destruct s; cbn; (split; [by eexists|done]).
  - destruct s as [|c' s]; cbn.
    + split; [done|]. by intros [q ?].
    + destruct (ascii_dec c c') as [->|Hne].
      * rewrite IH. split; [by intros [q ->]; exists q|].
        intros [q [= ->]]. by exists q.
      * split; [done|]. intros [q [= ? ?]]. done.
Qed.

Lemma includes_spec (k s : string) :
  JsString.includes k s = true ↔ ∃ p q, s = p +:+ k +:+ q.
Proof.
  induction s as [|c s IH]; cbn [JsString.includes].
  - rewrite orb_false_r, prefix_spec. split.
    + intros [q ->]. by exists "", q.
    + intros ([|x p] & q & H); [by exists q|discriminate H].
  - rewrite orb_true_iff, prefix_spec, IH. split.
    + intros [[q ->]|(p & q & ->)]; [by exists "", q|by exists (String c p), q].
    + intros ([|x p] & q & H); [left; by exists q|].
      injection H as -> ->. right. by exists p, q.
Qed.

Lemma includes_app k p n s :
  JsString.includes k n = true → JsString.includes k (p +:+ n +:+ s) = true.
Proof.
  rewrite !includes_spec. intros (a & b & ->).
  exists (p +:+ a), (b +:+ s). by rewrite !string_app_assoc.
Qed.

Lemma testAny_app alternatives p n s :
  JsString.testAny alternatives n = true →
  JsString.testAny alternatives (p +:+ n +:+ s) = true.
Proof.
  unfold JsString.testAny. rewrite !existsb_exists.
  intros (k & Hk & Hin). exists k. split; [done|]. by apply includes_app.
Qed.

Lemma toLowerCase_app a b :
  JsString.toLowerCase (a +:+ b) = JsString.toLowerCase a +:+ JsString.toLowerCase b.
Proof.
  induction a as [|x a IH]; [done|].
  change (String (JsString.toLowerChar x) (JsString.toLowerCase (a +:+ b))
          = String (JsString.toLowerChar x)
              (JsString.toLowerCase a +:+ JsString.toLowerCase b)).
  by rewrite IH.
Qed.

Lemma toLowerChar_idempotent c :
  JsString.toLowerChar (JsString.toLowerChar c) = JsString.toLowerChar c.
Proof. destruct c as [[] [] [] [] [] [] [] []]; reflexivity. Qed.

Lemma toLowerCase_idempotent s :
  JsString.toLowerCase (JsString.toLowerCase s) = JsString.toLowerCase s.
Proof.
  induction s as [|c s IH]; [done|]. cbn. by rewrite toLowerChar_idempotent, IH.
Qed.

(** ** The type guessed from a file name *)

(** X7. [guessTypeFromFilename] looks for its keywords anywhere in the
    name, so text added before or after a name can only move the guess
    towards the types tried first (dress, outerwear, bottom, shoes,
    accessory, and top when no keyword occurs). *)
Theorem guessTypeFromFilename_monotone (before fileName after : string) :
  (guessRank (guessTypeFromFilename (before +:+ fileName +:+ after))
   ≤ guessRank (guessTypeFromFilename fileName))%nat.
Proof.
  unfold guessTypeFromFilename. rewrite !toLowerCase_app.
  set (n := JsString.toLowerCase fileName).
  set (p := JsString.toLowerCase before). set (s := JsString.toLowerCase after).
  pose proof (testAny_app ["dress"; "gown"] p n s) as H1.
  pose proof (testAny_app ["coat"; "jacket"; "hoodie"; "blazer"; "parka"] p n s) as H2.
  pose proof (testAny_app ["jean"; "pant"; "trouser"; "short"] p n s) as H3.
  pose proof (testAny_app ["shoe"; "sneaker"; "boot"; "heel"; "loafer"] p n s) as H4.
  pose proof (testAny_app ["belt"; "hat"; "cap"; "scarf"; "bag"] p n s) as H5.
  repeat match goal with
         | H : JsString.testAny ?l n = true → _ |- _ =>
             destruct (JsString.testAny l n);
             [rewrite (H eq_refl)|clear H; destruct (JsString.testAny l (p +:+ n +:+ s))]
         end; cbn; lia.
Qed.

(** X8. The guess ignores the case of the letters. *)
Theorem guessTypeFromFilename_case (fileName : string) :
  guessTypeFromFilename (JsString.toLowerCase fileName) = guessTypeFromFilename fileName.
Proof. unfold guessTypeFromFilename. by rewrite toLowerCase_idempotent. Qed.

(** ** Rationale lines *)

Lemma buildRules_table profile :
  buildRules profile
  = match bodyType profile with
    | Some rectangle => [accentuateWaist]
    | Some triangle => [accentuateShoulders; elongate]
    | Some invertedTriangle => [minimizeHips; balance]
    | Some hourglass => [accentuateWaist]
    | Some oval => [elongate; relaxed]
    | None => []
    end.
Proof. unfold buildRules, pushIf. by destruct (bodyType profile) as [[]|]. Qed.

Lemma topStep_rationale bottoms outers shoes profile t c :
  c ∈ topStep bottoms outers shoes (buildRules profile) [] t →
  ∃ bottom_ rest,
    items c = t :: bottom_ :: rest
    ∧ rationale c
      = ("Top (" +:+ Js.toString (nameNearestColor (colorHex t)) +:+ ") with "
           +:+ Js.toString (nameNearestColor (colorHex bottom_))
           +:+ " bottom for contrast")
        :: adviceFor (bodyType profile).
Proof.
  unfold topStep. destruct (List.find (contrasts 80 t) bottoms) as [b0|];
    [|by intros ?%elem_of_nil].
  intros ->%list_elem_of_singleton. eexists b0, _. split; [done|].
  cbn [rationale]. rewrite buildRules_table.
  by destruct (bodyType profile) as [[]|].
Qed.

Lemma dressStep_rationale outers shoes d c :
  c ∈ dressStep outers shoes [] d →
  ∃ rest middle,
    items c = d :: rest
    ∧ rationale c = ["Dress as one-and-done base"; middle; "Shoes chosen for contrast"].
Proof.
  unfold dressStep. destruct (List.find (contrasts 60 d) shoes) as [shoe|];
    [|by intros ?%elem_of_nil].
  intros ->%list_elem_of_singleton. by eexists _, _.
Qed.

(** X9. The rationale of a suggestion.  An outfit built on a dress has three
    lines, the first and the last fixed.  An outfit built on a top has the
    contrast line naming the colours of the top and of the bottom, followed
    by the advice of the body type: tuck or belt for rectangle and
    hourglass; monochromatic column, then structured shoulder, for triangle;
    monochromatic column for oval; nothing for inverted triangle or an unset
    body type. *)
Theorem mixAndMatch_rationale garments profile o :
  o ∈ mixAndMatch garments profile →
  (∃ d rest middle,
     items o = d :: rest ∧ type d = dress
     ∧ rationale o = ["Dress as one-and-done base"; middle; "Shoes chosen for contrast"])
  ∨ (∃ t bottom_ rest,
       items o = t :: bottom_ :: rest ∧ type t = top
       ∧ rationale o
         = ("Top (" +:+ Js.toString (nameNearestColor (colorHex t)) +:+ ") with "
              +:+ Js.toString (nameNearestColor (colorHex bottom_))
              +:+ " bottom for contrast")
           :: adviceFor (bodyType profile)).
Proof.
  intros [Hc _]%elem_of_mixAndMatch. revert Hc.
  rewrite candidates_unfold, elem_of_app, !elem_of_flat_map.
  intros [(d & [_ Hd]%subseteq_take%elem_of_partition & Hc)
         |(t & [_ Ht]%subseteq_take%elem_of_partition & Hc)].
  - left. apply dressStep_rationale in Hc as (rest & middle & ? & ?).
    by exists d, rest, middle.
  - right. apply topStep_rationale in Hc as (b0 & rest & ? & ?).
    by exists t, b0, rest.
Qed.

Lemma mixAndMatch_rationale_witness :
  ∃ t bottom_ rest,
    items coolOutfit = t :: bottom_ :: rest ∧ type t = top
    ∧ rationale coolOutfit
      = ("Top (" +:+ Js.toString (nameNearestColor (colorHex t)) +:+ ") with "
           +:+ Js.toString (nameNearestColor (colorHex bottom_))
           +:+ " bottom for contrast")
        :: adviceFor (bodyType coolProfile).
Proof.
  destruct (mixAndMatch_rationale coolWardrobe coolProfile coolOutfit)
    as [(d & rest & middle & Hitems & Hty & _)|H].
  - vm_compute. constructor.
  - injection Hitems as <- _. discriminate Hty.
  - exact H.
Defined.

(** ** Removing and editing garments *)

Lemma elem_of_removeGarment i prev x :
  x ∈ removeGarment i prev ↔ x ∈ prev ∧ id x ≠ i.
Proof.
  unfold removeGarment. rewrite elem_of_filter_bool, negb_true_iff, String.eqb_neq.
  done.
Qed.

Lemma mixAndMatch_items_of_wardrobe garments profile o x :
  o ∈ mixAndMatch garments profile → x ∈ items o → x ∈ garments.
Proof.
  intros [Hc _]%elem_of_mixAndMatch Hx.
  destruct (candidates_shape _ _ _ Hc) as [Hshape|Hshape].
  - by apply (DressOutfit_items _ _ Hshape).
  - by apply (TopOutfit_items _ _ Hshape).
Qed.

(** X10. [removeGarment(id)] keeps exactly the garments with another id, in
    their order; doing it twice changes nothing more; and no garment with
    that id appears in any suggestion computed afterwards. *)
Theorem removeGarment_gone (i : string) (prev : list Garment) profile :
  (∀ x, x ∈ removeGarment i prev ↔ x ∈ prev ∧ id x ≠ i)
  ∧ removeGarment i prev `sublist_of` prev
  ∧ removeGarment i (removeGarment i prev) = removeGarment i prev
  ∧ (∀ o x, o ∈ mixAndMatch (removeGarment i prev) profile → x ∈ items o → id x ≠ i).
Proof.
  split; [intros x; apply elem_of_removeGarment|].
  split; [apply filter_bool_sublist|]. split.
  - unfold removeGarment. rewrite filter_bool_filter. apply filter_ext.
    intros x. by destruct (negb _).
  - intros o x Ho Hx.
    by apply (mixAndMatch_items_of_wardrobe _ _ _ _ Ho), elem_of_removeGarment in Hx
      as [_ ?].
Qed.

Lemma removeGarment_gone_witness : id redTop ≠ "t1".
Proof.
  apply (proj2 (proj2 (proj2 (removeGarment_gone "t1" fourGarments unconstrained)))
           {| items := [redTop; whiteBottom];
              rationale := ["Top (orange) with white bottom for contrast"] |} redTop).
  - vm_compute. constructor.
  - vm_compute. constructor.
Defined.

(** X11. Editing the name, the colour name, the tags, the image or the
    seasons of a garment (a patch without [id], [type] and [colorHex])
    leaves the suggestions as they are: the same outfits by item ids, in the
    same order, with the same rationale. *)
Theorem updateGarment_keeps_suggestions i patch garments profile :
  patch_id patch = None → patch_type patch = None → patch_colorHex patch = None →
  Forall2 (λ o1 o2, id <$> items o1 = id <$> items o2 ∧ rationale o1 = rationale o2)
    (mixAndMatch garments profile)
    (mixAndMatch (updateGarment i patch garments) profile).
Proof.
  intros Hid Hty Hhex.
  assert (∀ x, type (patched i patch x) = type x) as Ftype.
  { intros x. unfold patched. destruct (String.eqb _ _); [|done]. cbn. by rewrite Hty. }
  assert (∀ x, colorHex (patched i patch x) = colorHex x) as Fhex.
  { intros x. unfold patched. destruct (String.eqb _ _); [|done]. cbn. by rewrite Hhex. }
  assert (∀ x, id (patched i patch x) = id x) as Fid.
  { intros x. unfold patched. destruct (String.eqb _ _); [|done]. cbn. by rewrite Hid. }
  change (updateGarment i patch garments) with (patched i patch <$> garments).
  rewrite (mixAndMatch_relabel _ Ftype Fhex Fid).
  induction (mixAndMatch garments profile) as [|o l IH]; [constructor|].
  rewrite fmap_cons. constructor; [|done]. split; [|done].
  unfold mapItems. cbn [items]. rewrite <-list_fmap_compose.
  apply list_fmap_ext. intros _ x _. cbn. by rewrite Fid.
Qed.

Lemma updateGarment_keeps_suggestions_witness :
  Forall2 (λ o1 o2, id <$> items o1 = id <$> items o2 ∧ rationale o1 = rationale o2)
    (mixAndMatch fourGarments unconstrained)
    (mixAndMatch
       (updateGarment "t1"
          {| patch_id := None; patch_name := Some "black tee"; patch_type := None;
             patch_colorHex := None; patch_colorName := Some "coal";
             patch_imageDataUrl := None; patch_tags := Some ["basic"];
             patch_season := None |} fourGarments) unconstrained).
Proof. by apply updateGarment_keeps_suggestions. Defined.

(** X12. [updateGarment(id, patch)] keeps the number and the order of the
    garments, leaves those with another id untouched, and patches every
    garment with this id; a patch without [id] keeps all ids. *)
Theorem updateGarment_pointwise i patch (prev : list Garment) :
  length (updateGarment i patch prev) = length prev
  ∧ (∀ (k : nat) x, prev !! k = Some x →
       updateGarment i patch prev !! k
       = Some (if bool_decide (id x = i) then applyPatch x patch else x))
  ∧ (patch_id patch = None → id <$> updateGarment i patch prev = id <$> prev).
Proof.
  unfold updateGarment. split; [apply length_fmap|]. split.
  - intros k x Hk. rewrite list_lookup_fmap, Hk. cbn. f_equal.
    destruct (String.eqb_spec (id x) i).
    + by rewrite bool_decide_eq_true_2.
    + by rewrite bool_decide_eq_false_2.
  - intros Hid. rewrite <-list_fmap_compose. apply list_fmap_ext.
    intros _ x _. cbn. destruct (String.eqb _ _); [|done]. cbn. by rewrite Hid.
Qed.

Lemma updateGarment_pointwise_witness :
  id <$> updateGarment "b1"
           {| patch_id := None; patch_name := None; patch_type := Some shoes;
              patch_colorHex := None; patch_colorName := None;
              patch_imageDataUrl := None; patch_tags := None; patch_season := None |}
           fourGarments
  = id <$> fourGarments.
Proof. by apply updateGarment_pointwise. Defined.

(** ** The wardrobe filter *)

Lemma keptByFilter_sound f x :
  keptByFilter f x = true →
  (∀ t, filter_type f = Some (only t) → type x = t)
  ∧ (∀ c, filter_color f = Some c → c ≠ "" →
       nameNearestColor (colorHex x) = Some c).
Proof.
  unfold keptByFilter, whenTruthy.
  generalize (nameNearestColor (colorHex x)). intros colour.
  intros Hkept. split.
  - intros t Ht. rewrite Ht in Hkept.
    destruct (bool_decide_reflect (type x = t)); [done|discriminate Hkept].
  - intros c Hc Hne. rewrite Hc in Hkept.
    assert (JsString.truthy c = true) as Hc'
      by (unfold JsString.truthy; by apply negb_true_iff, String.eqb_neq).
    rewrite Hc' in Hkept.
    destruct (bool_decide_reflect (colour = Some c)); [done|].
    by destruct (match filter_type f with Some (only _) => _ | _ => _ end).
Qed.

(** X13. The garments shown are a part of the wardrobe, in wardrobe order;
    when a type other than ['all'] is chosen they all have this type, and
    when a colour is chosen they all have this colour name, computed from
    [colorHex]. *)
Theorem filteredGarments_sound garments f :
  filteredGarments garments f `sublist_of` garments
  ∧ ∀ x, x ∈ filteredGarments garments f →
      (∀ t, filter_type f = Some (only t) → type x = t)
      ∧ (∀ c, filter_color f = Some c → c ≠ "" →
           nameNearestColor (colorHex x) = Some c).
Proof.
  split; [apply filter_bool_sublist|].
  intros x [_ Hkept]%elem_of_filter_bool. by apply keptByFilter_sound.
Qed.

Lemma filteredGarments_sound_witness :
  type blackTop = top ∧ nameNearestColor (colorHex blackTop) = Some "black".
Proof.
  destruct (proj2 (filteredGarments_sound fourGarments
              {| filter_type := Some (only top); filter_color := Some "black";
                 filter_q := None |}) blackTop) as [Hty Hcol].
  - vm_compute. constructor.
  - split; [by apply Hty|by apply Hcol].
Defined.

(** X14. A filter whose type is absent or ['all'] and whose colour and
    query are absent or empty shows the whole wardrobe. *)
Theorem filteredGarments_all garments f :
  filter_type f = None ∨ filter_type f = Some all →
  filter_color f = None ∨ filter_color f = Some "" →
  filter_q f = None ∨ filter_q f = Some "" →
  filteredGarments garments f = garments.
Proof.
  intros Hty Hcol Hq. unfold filteredGarments.
  apply forallb_filter_id, forallb_forall. intros x _. unfold keptByFilter.
  by destruct Hty as [-> | ->], Hcol as [-> | ->], Hq as [-> | ->].
Qed.

Lemma filteredGarments_all_witness :
  filteredGarments fourGarments
    {| filter_type := Some all; filter_color := None; filter_q := Some "" |}
  = fourGarments.
Proof. apply filteredGarments_all; cbn; auto. Defined.

(** ** What the suggestions do not depend on *)

Lemma itemAccepted_profile_ext p p' x :
  skinUndertone p = skinUndertone p' → favoriteColors p = favoriteColors p' →
  dislikedColors p = dislikedColors p' →
  itemAccepted p x = itemAccepted p' x.
Proof.
  intros Hu Hf Hd. unfold itemAccepted, isColorFriendly. by rewrite Hu, Hf, Hd.
Qed.

(** X15. The suggestions depend on the profile only through the body type,
    the skin undertone and the favourite and disliked colours: the preferred
    styles and the formality scale are never consulted. *)
Theorem mixAndMatch_profile_fields garments p p' :
  bodyType p = bodyType p' → skinUndertone p = skinUndertone p' →
  favoriteColors p = favoriteColors p' → dislikedColors p = dislikedColors p' →
  mixAndMatch garments p = mixAndMatch garments p'.
Proof.
  intros Hb Hu Hf Hd. rewrite !mixAndMatch_unfold, !candidates_unfold.
  rewrite !buildRules_table, Hb. do 2 f_equal. apply filter_ext.
  intros c. induction (items c) as [|x l IH]; [done|].
  cbn [forallb]. by rewrite IH, (itemAccepted_profile_ext p p').
Qed.

Lemma mixAndMatch_profile_fields_witness :
  mixAndMatch coolWardrobe coolProfile
  = mixAndMatch coolWardrobe
      {| bodyType := Some triangle; skinUndertone := Some cool;
         preferredStyles := [sporty; boho];
         favoriteColors := Some ["blue"; "white"; "purple"];
         dislikedColors := Some ["red"]; formalityScale := Some 5 |}.
Proof. by apply mixAndMatch_profile_fields. Defined.

Lemma mixAndMatch_partitions garments garments' profile :
  (∀ ty, ty ≠ accessory →
     List.filter (hasType ty) garments = List.filter (hasType ty) garments') →
  mixAndMatch garments profile = mixAndMatch garments' profile.
Proof.
  intros H. rewrite !mixAndMatch_unfold, !candidates_unfold.
  by rewrite !H.
Qed.

(** X16. Accessories are ignored: taking them out of the wardrobe does not
    change the suggestions. *)
Theorem mixAndMatch_ignores_accessories garments profile :
  mixAndMatch (List.filter (λ x, negb (hasType accessory x)) garments) profile
  = mixAndMatch garments profile.
Proof.
  apply mixAndMatch_partitions. intros ty Hty.
  rewrite filter_bool_filter. apply filter_ext. intros x. unfold hasType.
  destruct (bool_decide_reflect (type x = ty)) as [->|_];
    [by rewrite bool_decide_eq_false_2|by rewrite andb_false_r].
Qed.

Lemma take_app_full {A} (n : nat) (l k : list A) :
  (n ≤ length l)%nat → take n (l ++ k) = take n l.
Proof.
  intros Hn. rewrite take_app. replace (n - length l)%nat with 0%nat by lia.
  by rewrite take_0, app_nil_r.
Qed.

Lemma partition_snoc ty (garments : list Garment) x :
  List.filter (hasType ty) (garments ++ [x])
  = List.filter (hasType ty) garments ++ (if bool_decide (type x = ty) then [x] else []).
Proof. by rewrite List.filter_app. Qed.

Lemma mixAndMatch_late_anchor garments extra profile (ty : GarmentType) (n : nat) :
  (ty = top ∧ n = 8%nat) ∨ (ty = dress ∧ n = 6%nat) →
  type extra = ty →
  (n ≤ length (List.filter (hasType ty) garments))%nat →
  mixAndMatch (garments ++ [extra]) profile = mixAndMatch garments profile.
Proof.
  intros Hcase Hty Hn. rewrite !mixAndMatch_unfold, !candidates_unfold.
  rewrite !partition_snoc, Hty.
  destruct Hcase as [[-> ->]|[-> ->]].
  - rewrite (bool_decide_eq_true_2 (top = top)) by done.
    rewrite !bool_decide_eq_false_2 by done.
    by rewrite !app_nil_r, take_app_full.
  - rewrite (bool_decide_eq_true_2 (dress = dress)) by done.
    rewrite !bool_decide_eq_false_2 by done.
    by rewrite !app_nil_r, take_app_full.
Qed.

(** X17. Only the first 8 tops and the first 6 dresses of the wardrobe are
    used: a top added after 8 tops, or a dress added after 6 dresses, at the
    end of the wardrobe, leaves the suggestions unchanged. *)
Theorem mixAndMatch_anchor_caps garments extra profile :
  (type extra = top →
   (8 ≤ length (List.filter (hasType top) garments))%nat →
   mixAndMatch (garments ++ [extra]) profile = mixAndMatch garments profile)
  ∧ (type extra = dress →
     (6 ≤ length (List.filter (hasType dress) garments))%nat →
     mixAndMatch (garments ++ [extra]) profile = mixAndMatch garments profile).
Proof.
  split; intros Hty Hn.
  - by apply (mixAndMatch_late_anchor _ _ _ top 8); [left|..].
  - by apply (mixAndMatch_late_anchor _ _ _ dress 6); [right|..].
Qed.

Lemma mixAndMatch_anchor_caps_witness :
  mixAndMatch (eightTops ++ [redTop]) unconstrained
  = mixAndMatch eightTops unconstrained.
Proof.
  apply (proj1 (mixAndMatch_anchor_caps eightTops redTop unconstrained));
    [reflexivity|vm_compute; lia].
Defined.

(** ** How many suggestions *)

Lemma flat_map_length_le {A B} (f : A → list B) (l : list A) :
  (∀ x, length (f x) ≤ 1)%nat → (length (flat_map f l) ≤ length l)%nat.
Proof.
  intros H. induction l as [|x l IH]; cbn [flat_map length]; [lia|].
  rewrite length_app. specialize (H x). lia.
Qed.

Lemma dressStep_length outers shoes d : (length (dressStep outers shoes [] d) ≤ 1)%nat.
Proof.
  destruct (dressStep_cases outers shoes d) as [[_ ->]|(c & ? & ? & -> & _)];
    cbn; lia.
Qed.

Lemma topStep_length bottoms outers shoes rules t :
  (length (topStep bottoms outers shoes rules [] t) ≤ 1)%nat.
Proof.
  destruct (topStep_cases bottoms outers shoes rules t)
    as [[_ ->]|(c & ? & ? & ? & -> & _)]; cbn; lia.
Qed.

(** X18. There is at most one suggestion per dress among the first 6 and
    per top among the first 8: the number of suggestions is at most
    [min(6, dresses) + min(8, tops)]. *)
Theorem mixAndMatch_length_anchors garments profile :
  (length (mixAndMatch garments profile)
   ≤ 6 `min` length (List.filter (hasType dress) garments)
     + 8 `min` length (List.filter (hasType top) garments))%nat.
Proof.
  pose proof (mixAndMatch_sublist garments profile) as Hsub.
  apply sublist_length in Hsub.
  pose proof (sublist_length _ _
    (filter_bool_sublist (λ c, forallb (itemAccepted profile) (items c))
       (candidates garments profile))) as Hfilter.
  rewrite candidates_unfold in Hsub, Hfilter. rewrite length_app in Hfilter.
  pose proof (flat_map_length_le
    (dressStep (List.filter (hasType outerwear) garments)
       (List.filter (hasType shoes) garments) [])
    (take 6 (List.filter (hasType dress) garments))
    (dressStep_length _ _)) as Hd.
  pose proof (flat_map_length_le
    (topStep (List.filter (hasType bottom) garments)
       (List.filter (hasType outerwear) garments)
       (List.filter (hasType shoes) garments) (buildRules profile) [])
    (take 8 (List.filter (hasType top) garments))
    (topStep_length _ _ _ _)) as Ht.
  rewrite length_take in Hd, Ht. lia.
Qed.

(** ** Colour names and the profile *)

(** Case analysis on membership in explicit lists of names. *)
Ltac name_cases :=
  repeat match goal with
    | H : _ ∈ [] |- _ => by apply elem_of_nil in H
    | H : _ ∈ _ :: _ |- _ =>
        let E := fresh "E" in
        apply elem_of_cons in H as [E|H]; [try discriminate E; try subst|]
    end.

Lemma mixAndMatch_first_item garments profile o :
  o ∈ mixAndMatch garments profile →
  ∃ x, x ∈ items o ∧ AcceptableItem profile x.
Proof.
  intros Ho. pose proof Ho as [Hc Hall]%elem_of_mixAndMatch.
  assert (∃ x, x ∈ items o) as [x Hx].
  { destruct (candidates_shape _ _ _ Hc) as [Hshape|Hshape].
    - destruct Hshape as (d & ? & ? & -> & _). exists d. by left.
    - destruct Hshape as (t & ? & ? & ? & -> & _). exists t. by left. }
  exists x. split; [done|]. apply itemAccepted_iff.
  rewrite forallb_forall in Hall. by apply Hall, list_elem_of_In.
Qed.

Lemma no_element_nil {A} (l : list A) : (∀ x, x ∉ l) → l = [].
Proof. destruct l as [|x l]; [done|]. intros H. destruct (H x). by left. Qed.

(** X19. Colour names are compared as written.  If the favourite colours
    are not empty and none of them is a palette name (a capitalised name,
    say), nothing is suggested; and nothing is suggested either when every
    palette name is disliked. *)
Theorem mixAndMatch_unmatched_names garments profile :
  (∀ favorite, favoriteColors profile = Some favorite → favorite ≠ [] →
     (∀ n, n ∈ paletteNames → n ∉ favorite) →
     mixAndMatch garments profile = [])
  ∧ (∀ disliked, dislikedColors profile = Some disliked →
       (∀ n, n ∈ paletteNames → n ∈ disliked) →
       mixAndMatch garments profile = []).
Proof.
  split.
  - intros favorite Hf Hne Hnone. apply no_element_nil. intros o Ho.
    apply mixAndMatch_first_item in Ho as (x & _ & colour & Hname & _ & Hfav & _).
    destruct (nameNearestColor_defined (colorHex x)) as (colour' & Hname' & Hin).
    rewrite Hname in Hname'. injection Hname' as <-.
    by apply (Hnone colour Hin), Hfav.
  - intros disliked Hd Hall. apply no_element_nil. intros o Ho.
    apply mixAndMatch_first_item in Ho as (x & _ & colour & Hname & Hdis & _).
    destruct (nameNearestColor_defined (colorHex x)) as (colour' & Hname' & Hin).
    rewrite Hname in Hname'. injection Hname' as <-.
    by apply (Hdis disliked Hd), Hall.
Qed.

Lemma mixAndMatch_unmatched_names_witness :
  mixAndMatch fourGarments
    {| bodyType := None; skinUndertone := None; preferredStyles := [];
       favoriteColors := Some ["Black"; "White"]; dislikedColors := None;
       formalityScale := None |}
  = [].
Proof.
  eapply (proj1 (mixAndMatch_unmatched_names fourGarments _)); [reflexivity|done|].
  intros n Hn. unfold paletteNames, NAMED_COLORS in Hn. cbn in Hn.
  intros Hin. name_cases.
Defined.

(** X20. The colour names that suit a cool undertone and those that suit a
    warm one are disjoint: no outfit is suggested both to a profile with a
    cool undertone and to a profile with a warm one, whatever the wardrobes
    and the rest of the profiles. *)
Theorem mixAndMatch_cool_warm garments1 garments2 profile1 profile2 o :
  skinUndertone profile1 = Some cool → skinUndertone profile2 = Some warm →
  o ∈ mixAndMatch garments1 profile1 → o ∉ mixAndMatch garments2 profile2.
Proof.
  intros Hcool Hwarm Ho1 Ho2.
  pose proof Ho1 as (x & Hx & _)%mixAndMatch_first_item.
  apply elem_of_mixAndMatch in Ho1 as [_ H1], Ho2 as [_ H2].
  rewrite forallb_forall in H1, H2. apply list_elem_of_In in Hx.
  specialize (H1 x Hx). specialize (H2 x Hx).
  apply itemAccepted_iff in H1 as (colour & Hname & _ & _ & Hc).
  apply itemAccepted_iff in H2 as (colour' & Hname' & _ & _ & Hw).
  rewrite Hname in Hname'. injection Hname' as <-.
  rewrite Hcool in Hc. rewrite Hwarm in Hw.
  name_cases.
Qed.

Lemma mixAndMatch_cool_warm_witness :
  coolOutfit
  ∉ mixAndMatch coolWardrobe
      {| bodyType := Some triangle; skinUndertone := Some warm;
         preferredStyles := [classic];
         favoriteColors := Some ["blue"; "white"; "purple"];
         dislikedColors := Some ["red"]; formalityScale := Some 3 |}.
Proof.
  apply (mixAndMatch_cool_warm coolWardrobe coolWardrobe coolProfile _ coolOutfit);
    [reflexivity|reflexivity|].
  vm_compute. constructor.
Defined.

(** ** Lists of names in a text field *)

Lemma split_nonempty sep s : JsString.split sep s ≠ [].
Proof.
  destruct s as [|c s]; cbn; [done|].
  destruct (Ascii.eqb c sep); [done|]. by destruct (JsString.split sep s).
Qed.

Lemma split_cons_other sep c s p ps :
  Ascii.eqb c sep = false → JsString.split sep s = p :: ps →
  JsString.split sep (String c s) = String c p :: ps.
Proof. intros Hc Hs. cbn. by rewrite Hc, Hs. Qed.

Lemma split_app sep a rest :
  occurs sep a = false →
  JsString.split sep (a +:+ String sep rest) = a :: JsString.split sep rest.
Proof.
  induction a as [|c a IH]; intros Ha.
  - change ("" +:+ String sep rest) with (String sep rest).
    cbn [JsString.split]. by rewrite Ascii.eqb_refl.
  - cbn [occurs] in Ha. apply orb_false_iff in Ha as [Hc Ha].
    change (String c a +:+ String sep rest) with (String c (a +:+ String sep rest)).
    by apply split_cons_other; [|apply IH].
Qed.

Lemma split_plain sep a : occurs sep a = false → JsString.split sep a = [a].
Proof.
  induction a as [|c a IH]; intros Ha; [done|].
  cbn [occurs] in Ha. apply orb_false_iff in Ha as [Hc Ha].
  by apply split_cons_other; [|apply IH].
Qed.

Lemma trim_space s : JsString.trim (String " " s) = JsString.trim s.
Proof. reflexivity. Qed.

Lemma showNames_cons n m rest :
  showNames (n :: m :: rest) = n +:+ String "," (String " " (showNames (m :: rest))).
Proof. reflexivity. Qed.

Lemma split_showNames names :
  names ≠ [] → Forall CleanName names →
  JsString.trim <$> JsString.split "," (showNames names) = names.
Proof.
  induction names as [|n [|m rest] IH]; intros Hne Hclean; [done| |].
  - apply Forall_cons in Hclean as [(_ & Htrim & Hcomma) _].
    unfold showNames. cbn [String.concat]. rewrite split_plain by done.
    cbn. by rewrite Htrim.
  - apply Forall_cons in Hclean as [(_ & Htrim & Hcomma) Hclean].
    rewrite showNames_cons, split_app by done.
    specialize (IH ltac:(done) Hclean).
    destruct (JsString.split "," (showNames (m :: rest))) as [|p ps] eqn:Hsplit;
      [done|].
    rewrite (split_cons_other "," " " _ p ps) by done.
    rewrite !fmap_cons, trim_space, Htrim. f_equal. by rewrite <-fmap_cons.
Qed.

(** X21. Round trip of the colour and tag fields: a list of clean names
    (not empty, trimmed, without comma), shown with [join(', ')] and read
    back, is the list itself. *)
Theorem parseNames_showNames (names : list string) :
  Forall CleanName names → parseNames (showNames names) = names.
Proof.
  intros Hclean. unfold parseNames. destruct names as [|n rest]; [done|].
  rewrite split_showNames by done.
  apply forallb_filter_id, forallb_forall. intros x Hx%list_elem_of_In.
  rewrite Forall_forall in Hclean. destruct (Hclean x Hx) as (Hne & _).
  unfold JsString.truthy. by apply negb_true_iff, String.eqb_neq.
Qed.

Lemma parseNames_showNames_witness :
  parseNames (showNames ["blue"; "off white"; "teal"]) = ["blue"; "off white"; "teal"].
Proof.
  apply parseNames_showNames.
  repeat constructor; done.
Defined.

Lemma trimStart_head s :
  Js.trimStart s = "" ∨ ∃ c t, Js.trimStart s = String c t ∧ Js.isWhiteSpace c = false.
Proof.
  induction s as [|c s IH]; [by left|]. cbn [Js.trimStart].
  destruct (Js.isWhiteSpace c) eqn:Hc; [done|]. right. by exists c, s.
Qed.

Lemma trimEnd_head c s :
  Js.isWhiteSpace c = false → ∃ t, JsString.trimEnd (String c s) = String c t.
Proof.
  intros Hc. cbn [JsString.trimEnd]. destruct (JsString.trimEnd s); rewrite ?Hc; eauto.
Qed.

Lemma trimEnd_idempotent s :
  JsString.trimEnd (JsString.trimEnd s) = JsString.trimEnd s.
Proof.
  induction s as [|c s IH]; [done|]. cbn [JsString.trimEnd].
  destruct (JsString.trimEnd s) as [|c' t] eqn:Ht.
  - destruct (Js.isWhiteSpace c) eqn:Hc; [done|]. cbn. by rewrite Hc.
  - cbn [JsString.trimEnd]. cbn [JsString.trimEnd] in IH.
    destruct (JsString.trimEnd t) as [|c'' t'];
      [destruct (Js.isWhiteSpace c'); [done|]|]; by rewrite IH.
Qed.

Lemma trim_idempotent s : JsString.trim (JsString.trim s) = JsString.trim s.
Proof.
  unfold JsString.trim.
  destruct (trimStart_head s) as [->|(c & t & -> & Hc)]; [done|].
  destruct (trimEnd_head c t Hc) as [t' Ht']. rewrite Ht'.
  cbn [Js.trimStart]. rewrite Hc, <-Ht'. apply trimEnd_idempotent.
Qed.

Lemma occurs_trimStart c s : occurs c s = false → occurs c (Js.trimStart s) = false.
Proof.
  induction s as [|x s IH]; [done|]. intros H. cbn [Js.trimStart].
  destruct (Js.isWhiteSpace x); [|done].
  cbn in H. apply orb_false_iff in H as [_ H]. by apply IH.
Qed.

Lemma occurs_trimEnd c s : occurs c s = false → occurs c (JsString.trimEnd s) = false.
Proof.
  induction s as [|x s IH]; [done|]. intros H. cbn in H.
  apply orb_false_iff in H as [Hx H]. specialize (IH H). cbn [JsString.trimEnd].
  destruct (JsString.trimEnd s) as [|y t].
  - destruct (Js.isWhiteSpace x); [done|]. cbn. by rewrite Hx.
  - cbn [occurs]. cbn [occurs] in IH. by rewrite Hx, IH.
Qed.

Lemma split_pieces sep s p :
  p ∈ JsString.split sep s → occurs sep p = false.
Proof.
  revert p. induction s as [|c s IH]; intros p.
  - cbn. by intros ->%list_elem_of_singleton.
  - cbn [JsString.split]. destruct (Ascii.eqb c sep) eqn:Hc.
    + intros [->|Hp]%elem_of_cons; [done|by apply IH].
    + destruct (JsString.split sep s) as [|q qs].
      * intros ->%list_elem_of_singleton. cbn. by rewrite Hc.
      * intros [->|Hp]%elem_of_cons.
        -- cbn. rewrite Hc. apply IH. by left.
        -- apply IH. by right.
Qed.

Lemma trimStart_blank s : Js.trimStart s = "" ↔ allWhite s = true.
Proof.
  induction s as [|c s IH]; [done|]. cbn [Js.trimStart allWhite].
  destruct (Js.isWhiteSpace c); [done|]. cbn. split; intros H; discriminate H.
Qed.

Lemma trim_blank s : JsString.trim s = "" ↔ allWhite s = true.
Proof.
  rewrite <-trimStart_blank. unfold JsString.trim.
  destruct (trimStart_head s) as [->|(c & t & -> & Hc)]; [done|].
  destruct (trimEnd_head c t Hc) as [t' ->]. split; intros H; discriminate H.
Qed.

Lemma blankField_split s :
  blankField s = forallb allWhite (JsString.split "," s).
Proof.
  induction s as [|c s IH]; [done|]. cbn [blankField JsString.split].
  destruct (Ascii.eqb c ",") eqn:Hc.
  - cbn [forallb allWhite]. by rewrite orb_true_r, IH.
  - rewrite orb_false_r, IH.
    pose proof (split_nonempty "," s) as Hne.
    destruct (JsString.split "," s) as [|p ps]; [done|].
    cbn [forallb allWhite]. by rewrite andb_assoc.
Qed.

Lemma no_name_blank (pieces : list string) :
  List.filter JsString.truthy (JsString.trim <$> pieces) = []
  ↔ forallb allWhite pieces = true.
Proof.
  induction pieces as [|p ps IH]; [done|].
  rewrite fmap_cons. cbn [List.filter forallb]. rewrite andb_true_iff, <-IH, <-trim_blank.
  unfold JsString.truthy at 1.
  destruct (String.eqb_spec (JsString.trim p) "") as [->|Hne]; cbn [negb].
  - tauto.
  - split; [intros H; discriminate H|tauto].
Qed.

(** X22. Whatever the text, the names read from a colour or tag field are
    clean: not empty, trimmed and without comma; and no name at all is read
    exactly from the blank fields, those made of white space and commas
    only (the empty field among them). *)
Theorem parseNames_clean (text : string) :
  Forall CleanName (parseNames text)
  ∧ (parseNames text = [] ↔ blankField text = true).
Proof.
  split.
  - apply Forall_forall. intros n. unfold parseNames.
    intros [Hn Htruthy]%elem_of_filter_bool.
    apply list_elem_of_fmap in Hn as (p & -> & Hp). split; [|split].
    + unfold JsString.truthy in Htruthy. by apply negb_true_iff, String.eqb_neq in Htruthy.
    + apply trim_idempotent.
    + apply split_pieces in Hp. unfold JsString.trim.
      by apply occurs_trimEnd, occurs_trimStart.
  - unfold parseNames. by rewrite no_name_blank, blankField_split.
Qed.

Lemma itemAccepted_empty_lists p p' x :
  skinUndertone p = skinUndertone p' →
  (favoriteColors p = favoriteColors p'
   ∨ (favoriteColors p = Some [] ∧ favoriteColors p' = None)) →
  (dislikedColors p = dislikedColors p'
   ∨ (dislikedColors p = Some [] ∧ dislikedColors p' = None)) →
  itemAccepted p x = itemAccepted p' x.
Proof.
  intros Hu Hf Hd. unfold itemAccepted, isColorFriendly. rewrite Hu.
  generalize (nameNearestColor (colorHex x)). intros colour.
  destruct Hf as [-> |[-> ->]], Hd as [-> |[-> ->]]; by destruct colour.
Qed.

(** X23. An empty list of favourite or of disliked colours, as left by a
    cleared field, constrains as little as an absent one. *)
Theorem mixAndMatch_empty_lists garments p p' :
  bodyType p = bodyType p' → skinUndertone p = skinUndertone p' →
  (favoriteColors p = favoriteColors p'
   ∨ (favoriteColors p = Some [] ∧ favoriteColors p' = None)) →
  (dislikedColors p = dislikedColors p'
   ∨ (dislikedColors p = Some [] ∧ dislikedColors p' = None)) →
  mixAndMatch garments p = mixAndMatch garments p'.
Proof.
  intros Hb Hu Hf Hd. rewrite !mixAndMatch_unfold, !candidates_unfold.
  rewrite !buildRules_table, Hb. do 2 f_equal. apply filter_ext.
  intros c. induction (items c) as [|x l IH]; [done|].
  cbn [forallb]. by rewrite IH, (itemAccepted_empty_lists p p').
Qed.

Lemma mixAndMatch_empty_lists_witness :
  mixAndMatch fourGarments
    {| bodyType := None; skinUndertone := None; preferredStyles := [];
       favoriteColors := Some (parseNames ""); dislikedColors := Some (parseNames " , ");
       formalityScale := None |}
  = mixAndMatch fourGarments unconstrained.
Proof. apply mixAndMatch_empty_lists; cbn; auto. Defined.

(** ** Names of new garments *)

Lemma noDot_occurs s : noDot s = negb (occurs "." s).
Proof.
  induction s as [|c s IH]; [done|]. cbn [noDot occurs]. rewrite IH.
  by destruct (Ascii.eqb c "."), (occurs "." s).
Qed.

Lemma occurs_app c a b : occurs c (a +:+ b) = occurs c a || occurs c b.
Proof.
  induction a as [|x a IH]; [done|].
  change (String x a +:+ b) with (String x (a +:+ b)). cbn [occurs].
  by rewrite IH, orb_assoc.
Qed.

(** X24. The name of a new garment is the file name without its
    extension: what follows the last dot is dropped with the dot, when it
    is not empty; a file name without dot is kept whole. *)
Theorem stripExtension_last_dot (base extension : string) :
  (occurs "." extension = false → extension ≠ "" →
   stripExtension (base +:+ String "." extension) = base)
  ∧ (occurs "." base = false → stripExtension base = base).
Proof.
  split.
  - intros Hext Hne. induction base as [|c base IH].
    + change ("" +:+ String "." extension) with (String "." extension).
      cbn [stripExtension]. rewrite noDot_occurs, Hext.
      unfold JsString.truthy. by rewrite (proj2 (String.eqb_neq _ _) Hne).
    + change (String c base +:+ String "." extension)
        with (String c (base +:+ String "." extension)).
      cbn [stripExtension]. rewrite IH, noDot_occurs, occurs_app.
      cbn [occurs]. rewrite Ascii.eqb_refl, orb_true_r, andb_false_r. done.
  - induction base as [|c base IH]; [done|]. intros H. cbn [occurs] in H.
    apply orb_false_iff in H as [Hc H]. cbn [stripExtension].
    by rewrite Hc, IH.
Qed.

Lemma stripExtension_last_dot_witness :
  stripExtension ("summer.dress.v2" +:+ String "." "jpeg") = "summer.dress.v2".
Proof. by apply stripExtension_last_dot. Defined.

(** X25. A garment made from an uploaded file carries the colour name the
    engine computes from its colour, a name of the palette, and the type
    guessed from the file name; choosing this colour name and this type in
    the wardrobe filter keeps the garment. *)
Theorem newGarment_consistent (uid fileName hex image : string) :
  let x := newGarment uid fileName hex image in
  nameNearestColor (colorHex x) = Some (colorName x)
  ∧ colorName x ∈ paletteNames
  ∧ type x = guessTypeFromFilename fileName
  ∧ keptByFilter {| filter_type := Some (only (guessTypeFromFilename fileName));
                    filter_color := Some (colorName x); filter_q := None |} x = true.
Proof.
  cbn zeta. unfold newGarment, keptByFilter, whenTruthy.
  cbn [colorHex colorName type filter_type filter_color filter_q].
  destruct (nameNearestColor_defined hex) as (colour & Hname & Hin).
  rewrite Hname. cbn [Js.toString].
  rewrite !bool_decide_eq_true_2 by done. cbn [negb andb].
  rewrite andb_false_r. done.
Qed.

(** ** Preferred styles *)

(** X26. Clicking a style switches its membership in the preferred styles
    and leaves the other styles as they were; a list without repetition
    stays without repetition; and adding a style then clicking it again
    gives back the list. *)
Theorem toggleStyle_membership (s : StyleVibe) (styles : list StyleVibe) :
  (∀ x, x ∈ toggleStyle s styles
        ↔ if bool_decide (x = s) then s ∉ styles else x ∈ styles)
  ∧ (NoDup styles → NoDup (toggleStyle s styles))
  ∧ (s ∉ styles → toggleStyle s (toggleStyle s styles) = styles).
Proof.
  unfold toggleStyle at 1 2. split; [|split].
  - intros x. case_bool_decide as Hin.
    + rewrite elem_of_filter_bool, negb_true_iff, bool_decide_eq_false.
      case_bool_decide as Hx; [subst x|]; intuition congruence.
    + rewrite elem_of_app, list_elem_of_singleton.
      case_bool_decide as Hx; [subst x|]; intuition congruence.
  - intros Hnd. case_bool_decide as Hin.
    + eapply sublist_NoDup; [exact Hnd|apply filter_bool_sublist].
    + apply NoDup_app. split; [done|]. split; [|apply NoDup_singleton].
      by intros x Hx ->%list_elem_of_singleton.
  - intros Hnot. unfold toggleStyle.
    rewrite (bool_decide_eq_false_2 (s ∈ styles)) by done.
    rewrite bool_decide_eq_true_2 by (apply elem_of_app; right; by left).
    rewrite List.filter_app. cbn [List.filter].
    rewrite (bool_decide_eq_true_2 (s = s)) by done. cbn [negb].
    rewrite app_nil_r. apply forallb_filter_id, forallb_forall.
    intros x Hx%list_elem_of_In. apply negb_true_iff, bool_decide_eq_false.
    by intros ->.
Qed.

Lemma toggleStyle_membership_witness :
  toggleStyle sporty (toggleStyle sporty [classic; minimalist]) = [classic; minimalist].
Proof.
  apply toggleStyle_membership. intros Hin. name_cases.
Defined.

(** ** Printing and reading integers in radix 16 *)

Lemma hexChar_isHex d : 0 ≤ d < 16 → is_Some (Js.hexDigit (JsString.hexChar d)).
Proof. intros Hd. rewrite hexDigit_hexChar by done. eauto. Qed.

Lemma digits16_allHex fuel n acc :
  0 ≤ n → allHex acc = true → allHex (JsString.digits16 fuel n acc) = true.
Proof.
  revert n acc. induction fuel as [|fuel IH]; intros n acc Hn Hacc; [done|].
  cbn [JsString.digits16]. destruct (Z.ltb_spec n 16).
  - cbn [allHex]. rewrite Hacc, bool_decide_eq_true_2; [done|].
    apply hexChar_isHex. lia.
  - apply IH; [Z.div_mod_to_equations; lia|].
    cbn [allHex]. rewrite Hacc, bool_decide_eq_true_2; [done|].
    apply hexChar_isHex. Z.div_mod_to_equations; lia.
Qed.

(** Reading the digits printed for [n] continues from [a] to
    [a * 16^len + n], after [len] digits. *)
Lemma digits16_read fuel n acc (k : nat) a :
  0 ≤ n < 16 ^ Z.of_nat fuel →
  ∃ len : nat,
    Js.hexPrefix (JsString.digits16 fuel n acc) k a
    = Js.hexPrefix acc (k + len)%nat (a * 16 ^ Z.of_nat len + n)
    ∧ (fuel ≠ 0%nat → len ≠ 0%nat).
Proof.
  revert n acc k a. induction fuel as [|fuel IH]; intros n acc k a Hn.
  - exists 0%nat. cbn [JsString.digits16]. split; [|done].
    rewrite Nat.add_0_r. f_equal. cbn in Hn. lia.
  - cbn [JsString.digits16]. destruct (Z.ltb_spec n 16) as [Hlt|Hge].
    + exists 1%nat. split; [|done]. rewrite hexPrefix_hexChar by lia.
      f_equal; [lia|]. change (16 ^ Z.of_nat 1) with 16. lia.
    + destruct (IH (n / 16) (String (JsString.hexChar (n mod 16)) acc) k a)
        as (len & Hread & _).
      { rewrite Nat2Z.inj_succ, Z.pow_succ_r in Hn by lia.
        Z.div_mod_to_equations; lia. }
      exists (S len). split; [|done]. rewrite Hread.
      rewrite hexPrefix_hexChar by (Z.div_mod_to_equations; lia).
      f_equal; [lia|].
      rewrite Nat2Z.inj_succ, Z.pow_succ_r by lia.
      Z.div_mod_to_equations; lia.
Qed.

Lemma log2_fuel n : 0 ≤ n → n < 16 ^ Z.of_nat (S (Z.to_nat (Z.log2 n))).
Proof.
  intros Hn. destruct (Z.eq_dec n 0) as [->|Hne]; [done|].
  pose proof (Z.log2_nonneg n).
  pose proof (Z.log2_spec n ltac:(lia)) as [_ Hlt].
  rewrite Nat2Z.inj_succ, Z2Nat.id by done.
  eapply Z.lt_le_trans; [exact Hlt|].
  apply Z.pow_le_mono_l. lia.
Qed.

(** The digits printed for [n >= 0] are read back as [n]. *)
Lemma printed_digits n :
  0 ≤ n →
  let s := JsString.digits16 (S (Z.to_nat (Z.log2 n))) n "" in
  allHex s = true
  ∧ ∃ len : nat, Js.hexPrefix s 0%nat 0 = (S len, n).
Proof.
  intros Hn s. split; [by apply digits16_allHex|].
  destruct (digits16_read (S (Z.to_nat (Z.log2 n))) n "" 0%nat 0) as (len & Hread & Hlen).
  { split; [done|by apply log2_fuel]. }
  destruct len as [|len]; [by destruct Hlen|]. exists len.
  unfold s. rewrite Hread. cbn [Js.hexPrefix]. f_equal; lia.
Qed.

(** A string of hex digits has no [0x] to skip. *)
Lemma parseDigits16_allHex negative s :
  allHex s = true →
  parseDigits16 negative s
  = match Js.hexPrefix s 0%nat 0 with
    | (O, _) => Js.NaN
    | (_, m) => Js.roundToDouble negative m
    end.
Proof.
  destruct s as [|c1 s]; [done|]. cbn [allHex].
  rewrite andb_true_iff, bool_decide_eq_true. intros [[d1 H1] Hs].
  unfold parseDigits16.
  destruct c1 as [[] [] [] [] [] [] [] []]; try discriminate H1; try reflexivity.
  destruct s as [|c2 s]; [reflexivity|]. cbn [allHex] in Hs.
  apply andb_true_iff in Hs as [[d2 H2]%bool_decide_eq_true _].
  destruct c2 as [[] [] [] [] [] [] [] []]; try discriminate H2; reflexivity.
Qed.

Lemma parseInt16_digits s :
  allHex s = true → s ≠ "" → Js.parseInt16 s = parseDigits16 false s.
Proof.
  destruct s as [|c s]; [done|]. cbn [allHex].
  rewrite andb_true_iff, bool_decide_eq_true. intros [[d Hd] _] _.
  destruct c as [[] [] [] [] [] [] [] []]; try discriminate Hd; reflexivity.
Qed.

(** X27. Round trip of radix 16: an integer between [-2^53] and [2^53],
    printed by [toString(16)] and read by [parseInt(_, 16)], is read back
    as itself. *)
Theorem parseInt16_toString16 (v : Z) :
  - 2 ^ 53 < v < 2 ^ 53 → Js.parseInt16 (JsString.toString16 v) = Js.Finite v.
Proof.
  intros Hv. unfold JsString.toString16. destruct (Z.ltb_spec v 0) as [Hneg|Hpos].
  - destruct (printed_digits (- v) ltac:(lia)) as [Hhex (len & Hread)].
    change (Js.parseInt16 (String "-" ?s)) with (parseDigits16 true s).
    rewrite parseDigits16_allHex, Hread by done.
    unfold Js.roundToDouble. destruct (Z.ltb_spec (- v) (2 ^ 53)); [|lia].
    f_equal. lia.
  - destruct (printed_digits v Hpos) as [Hhex (len & Hread)].
    rewrite parseInt16_digits; [|done|].
    + rewrite parseDigits16_allHex, Hread by done.
      unfold Js.roundToDouble. destruct (Z.ltb_spec v (2 ^ 53)); [|lia].
      f_equal. lia.
    + intros Hs. rewrite Hs in Hread. discriminate Hread.
Qed.

Lemma parseInt16_toString16_witness :
  Js.parseInt16 (JsString.toString16 (-48879)) = Js.Finite (-48879).
Proof. apply parseInt16_toString16. lia. Defined.

(** ** Searching the wardrobe *)

Lemma concat_elem sep (l : list string) t :
  t ∈ l → ∃ p s, String.concat sep l = p +:+ t +:+ s.
Proof.
  induction l as [|x [|y l] IH]; [by intros ?%elem_of_nil| |].
  - intros ->%list_elem_of_singleton. exists "", "". cbn [String.concat].
    by rewrite string_app_nil_r.
  - intros [->|Ht]%elem_of_cons.
    + by exists "", (sep +:+ String.concat sep (y :: l)).
    + destruct (IH Ht) as (p & s & Heq). exists (x +:+ sep +:+ p), s.
      change (String.concat sep (x :: y :: l))
        with (x +:+ sep +:+ String.concat sep (y :: l)).
      by rewrite Heq, !string_app_assoc.
Qed.

Lemma includes_lower q haystack p word s :
  haystack = p +:+ word +:+ s →
  JsString.toLowerCase word = JsString.toLowerCase q →
  JsString.includes (JsString.toLowerCase q) (JsString.toLowerCase haystack) = true.
Proof.
  intros -> Hword. rewrite !toLowerCase_app, Hword. apply includes_spec. eauto.
Qed.

(** X28. The search box looks for the query, ignoring case, in the name and
    in the tags: with no type and no colour chosen, a garment whose name
    contains the query, or one of whose tags contains it, is shown.  This is
    for text of code units below 256, the strings of this embedding, which
    [toLowerCase] lowers unit by unit; beyond them the lowering of a
    character can depend on its neighbours (a Greek capital sigma at the
    end of a word), and a name that contains the query can be missed. *)
Theorem keptByFilter_query (f : WardrobeFilter) (q : string) (x : Garment) :
  filter_type f = None ∨ filter_type f = Some all →
  filter_color f = None ∨ filter_color f = Some "" →
  filter_q f = Some q →
  (∃ before word after,
     JsString.toLowerCase word = JsString.toLowerCase q
     ∧ (name x = before +:+ word +:+ after
        ∨ ∃ tag, tag ∈ tags x ∧ tag = before +:+ word +:+ after)) →
  keptByFilter f x = true.
Proof.
  intros Hty Hcol Hq (before & word & after & Hword & Hwhere).
  assert (JsString.includes (JsString.toLowerCase q)
            (JsString.toLowerCase (name x +:+ " " +:+ String.concat " " (tags x)))
          = true) as Hfound.
  { destruct Hwhere as [Hname|(tag & Htag & ->)].
    - apply (includes_lower q _ before word
               (after +:+ " " +:+ String.concat " " (tags x))); [|done].
      by rewrite Hname, !string_app_assoc.
    - destruct (concat_elem " " (tags x) _ Htag) as (p & s & Heq).
      apply (includes_lower q _ (name x +:+ " " +:+ p +:+ before) word (after +:+ s));
        [|done].
      by rewrite Heq, !string_app_assoc. }
  unfold keptByFilter, whenTruthy. rewrite Hq, Hfound.
  destruct Hty as [-> | ->], Hcol as [-> | ->]; cbn [negb andb JsString.truthy];
    by rewrite ?andb_false_r.
Qed.

Lemma keptByFilter_query_witness :
  keptByFilter {| filter_type := Some all; filter_color := None; filter_q := Some "TEE" |}
    (withColorName "coal" (garment "Black tee shirt" top "#000000"))
  = true.
Proof.
  apply (keptByFilter_query _ "TEE"); [by right|by left|done|].
  exists "Black ", "tee", " shirt". split; [reflexivity|]. by left.
Defined.
